(** * Appointment scheduling core of the hospital management application

    A shallow embedding of the booking logic of [app/models.py] and of the
    route handlers of [app/routes/patient.py], [app/routes/doctor.py] and
    [app/routes/admin.py], followed by the properties of the scheduling
    specification that hold (or fail) on it.

    Conventions of the embedding:
    - a table is the list of its rows in rowid order; [Model.query.filter]
      is [filter], [.first()] is [head], [Model.query.get] is a search by
      primary key;
    - a handler is a function from the database (and the request) to the
      database left behind and the response; the session is committed at
      most once per request, so a handler that returns early or raises
      leaves the database as it found it;
    - Python integers are [Z], strings are [string], [Optional] is
      [option], a JSON object is a [gmap] keyed by strings;
    - the columns [created_at] and [updated_at] and the account columns of
      [users] (name, email, password hash, contact) are maintained by
      column defaults and never read by the scheduling code; they are left
      out of the rows. *)

From Stdlib Require Import Ascii String.
From stdpp Require Import gmap strings list sorting.

Local Open Scope Z_scope.
#[local] Set Warnings "-clear-no-such-hyp".

(** ** Enumerations and rows of [models.py] *)

Inductive UserRole := ADMIN | DOCTOR | PATIENT.

Inductive AppointmentState := BOOKED | COMPLETED | CANCELLED.

#[global] Instance UserRole_eq_dec : EqDecision UserRole.
Proof. solve_decision. Defined.

#[global] Instance AppointmentState_eq_dec : EqDecision AppointmentState.
Proof. solve_decision. Defined.

(** [AppointmentState.value] *)
Definition value (s : AppointmentState) : string :=
  match s with
  | BOOKED => "Booked"
  | COMPLETED => "Completed"
  | CANCELLED => "Cancelled"
  end.

(** [datetime.date] and [datetime.time] (to the minute, which is all that
    the format [%H:%M] can produce). *)
Record pydate := Date { year : Z; month : Z; day : Z }.
Record pytime := Time { hour : Z; minute : Z }.

#[global] Instance pydate_eq_dec : EqDecision pydate.
Proof. solve_decision. Defined.

#[global] Instance pytime_eq_dec : EqDecision pytime.
Proof. solve_decision. Defined.

(** [PhysicianProfile]: the JSON column [availability] maps an ISO date
    string to the list of slot labels offered on that day; the column is
    nullable. *)
Record PhysicianProfile := {
  availability : option (gmap string (list string))
}.

(** [SystemUser], with the one-to-one relationship [physician_profile]. *)
Record SystemUser := {
  user_id : Z;
  role : UserRole;
  physician_profile : option PhysicianProfile
}.

(** [MedicalAppointment] *)
Record MedicalAppointment := {
  id : Z;
  patient_id : Z;
  doctor_id : Z;
  date : pydate;
  time : pytime;
  status : AppointmentState;
  notes : string
}.

#[global] Instance MedicalAppointment_eq_dec : EqDecision MedicalAppointment.
Proof. solve_decision. Defined.

(** [TreatmentRecord] *)
Record TreatmentRecord := {
  treatment_id : Z;
  appointment_id : Z;
  visit_type : string;
  tests_done : string;
  diagnosis : string;
  prescription : string;
  medicines : string;
  treatment_notes : string
}.

#[global] Instance TreatmentRecord_eq_dec : EqDecision TreatmentRecord.
Proof. solve_decision. Defined.

(** Attribute assignments on an appointment. *)
Definition set_status (a : MedicalAppointment) (s : AppointmentState)
  : MedicalAppointment :=
  {| id := id a; patient_id := patient_id a; doctor_id := doctor_id a;
     date := date a; time := time a; status := s; notes := notes a |}.

Definition set_date_time (a : MedicalAppointment) (d : pydate) (t : pytime)
  : MedicalAppointment :=
  {| id := id a; patient_id := patient_id a; doctor_id := doctor_id a;
     date := d; time := t; status := status a; notes := notes a |}.

(** ** Methods of [MedicalAppointment] *)

(** [MedicalAppointment.check_time_slot_availability]; the first argument
    is the table that [MedicalAppointment.query] reads. *)
Definition check_time_slot_availability (appointments : list MedicalAppointment)
    (physician_id : Z) (appointment_date : pydate) (appointment_time : pytime)
    (exclude_appointment_id : option Z) : bool :=
  let query :=
    filter (λ a, doctor_id a = physician_id ∧ date a = appointment_date ∧
                 time a = appointment_time ∧ status a = BOOKED) appointments in
  let query :=
    match exclude_appointment_id with
    | Some x => filter (λ a, id a ≠ x) query
    | None => query
    end in
  let conflicting_appointment := head query in
  bool_decide (conflicting_appointment = None).

(** [MedicalAppointment.is_slot_available] *)
Definition is_slot_available (appointments : list MedicalAppointment)
    (doctor : Z) (appointment_date : pydate) (appointment_time : pytime)
    (exclude_id : option Z) : bool :=
  check_time_slot_availability appointments doctor appointment_date
    appointment_time exclude_id.

(** [MedicalAppointment.validate_status_transition]
    (alias [can_transition_to]) *)
Definition validate_status_transition (self : MedicalAppointment)
    (target_status : AppointmentState) : bool * option string :=
  let current_status := status self in
  if decide (current_status = target_status) then (true, None)
  else if decide (current_status = BOOKED) then
    if decide (target_status ∈ [COMPLETED; CANCELLED]) then (true, None)
    else (false, Some ("Invalid transition from " +:+ value current_status
                         +:+ " to " +:+ value target_status))
  else if decide (current_status ∈ [COMPLETED; CANCELLED]) then
    if decide (target_status = BOOKED) then
      (false, Some ("Cannot change " +:+ value current_status
                      +:+ " appointment back to Booked"))
    else (true, None)
  else (true, None).

Definition can_transition_to := validate_status_transition.

(** Python's [x or default] on an optional string: [None] and the empty
    string are falsy. *)
Definition or_default (x : option string) (default : string) : string :=
  match x with
  | Some s => if decide (s = "") then default else s
  | None => default
  end.

(** [MedicalAppointment.change_status] (alias [update_status]); the method
    mutates [self], so the embedding returns the appointment it leaves
    behind together with the returned pair. *)
Definition change_status (self : MedicalAppointment)
    (new_status : AppointmentState) (bypass_validation : bool)
  : MedicalAppointment * (bool * string) :=
  let apply :=
    let previous_status := status self in
    (set_status self new_status,
     (true, "Status changed from " +:+ value previous_status
              +:+ " to " +:+ value new_status)) in
  if negb bypass_validation then
    let '(is_valid, error_message) :=
      validate_status_transition self new_status in
    if negb is_valid then
      (self, (false, or_default error_message "Invalid status transition"))
    else apply
  else apply.

Definition update_status := change_status.

(** [MedicalAppointment.represents_permanent_record] *)
Definition represents_permanent_record (self : MedicalAppointment) : bool :=
  bool_decide (status self = COMPLETED).

(** ** The database and the Python runtime *)

Record Database := {
  users : list SystemUser;
  appointments : list MedicalAppointment;
  treatments : list TreatmentRecord
}.

Definition with_appointments (db : Database) (t : list MedicalAppointment)
  : Database :=
  {| users := users db; appointments := t; treatments := treatments db |}.

(** The standard-library parsers that the handlers call on request
    strings: [int(s)], [date.fromisoformat(s)] and
    [datetime.strptime(s, '%H:%M').time()].  [None] stands for the
    [ValueError] they raise. *)
Class PyRuntime := {
  py_int : string → option Z;
  fromisoformat : string → option pydate;
  strptime_HM : string → option pytime
}.

Inductive Exception := ValueError | AttributeError | IntegrityError | BuildError.

Inductive Method := GET | POST.

(** What a request ends in: a redirect to an endpoint, a rendered
    template, [abort(code)], or an exception that no handler catches. *)
Inductive Outcome :=
  | Redirect (endpoint : string)
  | Render (template : string)
  | Abort (code : Z)
  | Raise (e : Exception).

(** The messages passed to [flash(message, category)], in order, and the
    outcome. *)
Record Response := {
  flashed : list (string * string);
  outcome : Outcome
}.

#[global] Instance Exception_eq_dec : EqDecision Exception.
Proof. solve_decision. Defined.

#[global] Instance Outcome_eq_dec : EqDecision Outcome.
Proof. solve_decision. Defined.

Definition respond (o : Outcome) : Response := {| flashed := []; outcome := o |}.

Definition flash (message category : string) (o : Outcome) : Response :=
  {| flashed := [(message, category)]; outcome := o |}.

(** The endpoints registered by the blueprints [admin], [doctor],
    [patient] and [auth] and by the application factory. *)
Definition endpoints : list string :=
  [ "index"; "static";
    "admin.display_admin_dashboard"; "admin.list_all_physicians";
    "admin.add_new_physician"; "admin.modify_physician_profile";
    "admin.remove_physician"; "admin.blacklist_physician";
    "admin.manage_physician_availability"; "admin.list_all_appointments";
    "admin.view_appointment_details"; "admin.modify_appointment_status";
    "admin.remove_appointment"; "admin.list_all_patients";
    "admin.view_patient_details"; "admin.modify_patient_profile";
    "admin.delete_patient"; "admin.deactivate_patient"; "admin.perform_search";
    "doctor.display_physician_dashboard"; "doctor.list_physician_appointments";
    "doctor.view_appointment_details"; "doctor.mark_appointment_completed";
    "doctor.cancel_physician_appointment"; "doctor.list_assigned_patients";
    "doctor.view_patient_history"; "doctor.manage_availability";
    "patient.display_client_dashboard"; "patient.update_client_profile";
    "patient.view_department"; "patient.view_physician_profile";
    "patient.view_doctor_availability"; "patient.search_physicians";
    "patient.create_appointment"; "patient.list_client_appointments";
    "patient.view_appointment_details"; "patient.reschedule_client_appointment";
    "patient.cancel_client_appointment"; "patient.view_treatment_history";
    "auth.handle_login_request"; "auth.handle_registration_request";
    "auth.handle_logout_request"; "auth.display_user_profile" ].

(** [redirect(url_for(endpoint, ...))]: building the URL of an endpoint
    that is not registered raises. *)
Definition redirect_url_for (endpoint : string) : Outcome :=
  if decide (endpoint ∈ endpoints) then Redirect endpoint else Raise BuildError.

(** *** Tables *)

(** The rowid that SQLite gives to an inserted row: one more than the
    largest in use, 1 in an empty table. *)
Definition next_id (ids : list Z) : Z :=
  match ids with
  | [] => 1
  | i :: rest => foldr Z.max i rest + 1
  end.

(** [Model.query.get(i)] on each table. *)
Definition get_user (table : list SystemUser) (i : Z) : option SystemUser :=
  head (filter (λ u, user_id u = i) table).

Definition get_appointment (table : list MedicalAppointment) (i : Z)
  : option MedicalAppointment :=
  head (filter (λ a, id a = i) table).

(** [UPDATE appointments SET ... WHERE id = ?] *)
Definition update_row (table : list MedicalAppointment) (row : MedicalAppointment)
  : list MedicalAppointment :=
  (λ a, if decide (id a = id row) then row else a) <$> table.

Definition same_slot (a b : MedicalAppointment) : Prop :=
  doctor_id a = doctor_id b ∧ date a = date b ∧ time a = time b.

#[global] Instance same_slot_dec a b : Decision (same_slot a b).
Proof. unfold same_slot. apply _. Defined.

(** The table constraint
    [UniqueConstraint('doctor_id', 'date', 'time',
                      name='uq_doctor_date_time_booked_slot')],
    as the storage layer checks it for [row] against the other rows.  The
    constraint names no status column.  (The tables that the handlers
    use are the ones that [db.create_all()] creates from the declarations
    of [models.py].) *)
Definition uq_doctor_date_time_booked_slot (table : list MedicalAppointment)
    (row : MedicalAppointment) : bool :=
  bool_decide (Forall (λ a, id a = id row ∨ ¬ same_slot a row) table).

(** [db.session.add(Appointment(...)); db.session.commit()]: the INSERT
    fails with an [IntegrityError] ([None]) when the constraint is
    violated. *)
Definition insert_appointment (table : list MedicalAppointment)
    (patient doctor : Z) (d : pydate) (t : pytime) (s : AppointmentState)
    (n : string) : option (list MedicalAppointment) :=
  let row := {| id := next_id (id <$> table); patient_id := patient;
                doctor_id := doctor; date := d; time := t; status := s;
                notes := n |} in
  if uq_doctor_date_time_booked_slot table row then Some (table ++ [row])
  else None.

(** Committing new values of [date] and [time] for a loaded appointment.
    The ORM emits no UPDATE when neither attribute has changed; otherwise
    the UPDATE is checked against the constraint. *)
Definition update_date_time (table : list MedicalAppointment)
    (appointment : MedicalAppointment) (d : pydate) (t : pytime)
  : option (list MedicalAppointment) :=
  if decide (date appointment = d ∧ time appointment = t) then Some table
  else
    let row := set_date_time appointment d t in
    if uq_doctor_date_time_booked_slot table row then Some (update_row table row)
    else None.

(** Python truthiness of a string. *)
Definition truthy (s : string) : bool := bool_decide (s ≠ "").

(** ** [app/routes/patient.py] *)

(** The fields of a booking or reschedule request, as the handlers read
    them: [request.form.get(key, '').strip()] on a POST,
    [request.args.get(key, '').strip()] on a GET. *)
Record BookingRequest := {
  req_doctor_id : string;
  req_date : string;
  req_time : string;
  req_notes : string;
  req_specialization : string
}.

Module patient.
Section handlers.
Context `{!PyRuntime}.

Definition require_client_access (current_user : SystemUser) (db : Database)
    (func : Database * Response) : Database * Response :=
  if decide (role current_user ≠ PATIENT) then
    (db, flash "Access denied. Patient only." "error" (redirect_url_for "index"))
  else func.

(** Both arguments are strings at every call site. *)
Definition _normalize_date_time_inputs (appointment_date appointment_time : string)
  : option (pydate * pytime) :=
  d ← fromisoformat appointment_date;
  t ← strptime_HM appointment_time;
  Some (d, t).

(** Returns [(is_conflict, existing)]; [None] when a parser raises. *)
Definition verify_slot_availability (table : list MedicalAppointment)
    (doctor : Z) (appointment_date appointment_time : string)
    (exclude_appointment_id : option Z)
  : option (bool * option MedicalAppointment) :=
  '(normalized_date, normalized_time) ←
    _normalize_date_time_inputs appointment_date appointment_time;
  let is_available :=
    is_slot_available table doctor normalized_date normalized_time
      exclude_appointment_id in
  let existing :=
    if negb is_available then
      let query :=
        filter (λ a, doctor_id a = doctor ∧ date a = normalized_date ∧
                     time a = normalized_time ∧ status a = BOOKED) table in
      let query :=
        match exclude_appointment_id with
        | Some x => if decide (x = 0) then query
                    else filter (λ a, id a ≠ x) query
        | None => query
        end in
      head query
    else None in
  Some (negb is_available, existing).

Definition _validate_doctor_availability (doctor : SystemUser)
    (appointment_date appointment_time : string) : bool * option string :=
  match physician_profile doctor with
  | None => (false, Some "Doctor is not available on this date.")
  | Some profile =>
    match availability profile with
    | None => (false, Some "Doctor is not available on this date.")
    | Some avail =>
      if decide (avail = ∅) then
        (false, Some "Doctor is not available on this date.")
      else
        match avail !! appointment_date with
        | None => (false, Some "Doctor is not available on this date.")
        | Some available_slots =>
          if decide (appointment_time ∈ available_slots) then (true, None)
          else (false, Some "Selected time slot is not available. Please choose another time.")
        end
    end
  end.

(** The tail of the GET branch of [create_appointment]: the booking form
    is rendered after the doctors to list have been looked up. *)
Definition booking_form (flashes : list (string * string)) (req : BookingRequest)
  : Response :=
  let render := {| flashed := flashes;
                   outcome := Render "patient/book_appointment.html" |} in
  let raise := {| flashed := flashes; outcome := Raise ValueError |} in
  if truthy (req_specialization req) then
    match py_int (req_specialization req) with
    | Some _ => render
    | None => raise
    end
  else if truthy (req_doctor_id req) then
    match py_int (req_doctor_id req) with
    | Some _ => render
    | None => raise
    end
  else render.

Definition create_appointment (db : Database) (current_user : SystemUser)
    (method : Method) (req : BookingRequest) : Database * Response :=
  require_client_access current_user db
  match method with
  | GET =>
    if truthy (req_doctor_id req) && truthy (req_date req) && truthy (req_time req) then
      match py_int (req_doctor_id req) with
      | None => (db, respond (Raise ValueError))
      | Some did =>
        match get_user (users db) did with
        | Some doctor =>
          if decide (role doctor = DOCTOR) then
            match _validate_doctor_availability doctor (req_date req) (req_time req) with
            | (true, _) =>
              match verify_slot_availability (appointments db) (user_id doctor)
                      (req_date req) (req_time req) None with
              | None => (db, respond (Raise ValueError))
              | Some (false, _) =>
                match fromisoformat (req_date req), strptime_HM (req_time req) with
                | Some d, Some t =>
                  match insert_appointment (appointments db) (user_id current_user)
                          (user_id doctor) d t BOOKED "" with
                  | Some table =>
                    (with_appointments db table,
                     flash "Appointment booked successfully!" "success"
                       (redirect_url_for "patient.view_appointment_details"))
                  | None => (db, respond (Raise IntegrityError))
                  end
                | _, _ => (db, respond (Raise ValueError))
                end
              | Some (true, _) =>
                (db, booking_form
                       [("This time slot is already booked. Please choose another time.",
                         "error")] req)
              end
            | (false, error_message) =>
              (db, booking_form [(default "None" error_message, "error")] req)
            end
          else (db, booking_form [] req)
        | None => (db, booking_form [] req)
        end
      end
    else (db, booking_form [] req)
  | POST =>
    if negb (truthy (req_doctor_id req) && truthy (req_date req) && truthy (req_time req)) then
      (db, flash "Please fill in all required fields." "error"
             (redirect_url_for "patient.create_appointment"))
    else
      match py_int (req_doctor_id req) with
      | None => (db, respond (Raise ValueError))
      | Some did =>
        match get_user (users db) did with
        | None =>
          (db, flash "Invalid doctor selected." "error"
                 (redirect_url_for "patient.create_appointment"))
        | Some doctor =>
          if decide (role doctor ≠ DOCTOR) then
            (db, flash "Invalid doctor selected." "error"
                   (redirect_url_for "patient.create_appointment"))
          else
            match _validate_doctor_availability doctor (req_date req) (req_time req) with
            | (false, error_message) =>
              (db, flash (default "None" error_message) "error"
                     (redirect_url_for "patient.create_appointment"))
            | (true, _) =>
              match verify_slot_availability (appointments db) (user_id doctor)
                      (req_date req) (req_time req) None with
              | None => (db, respond (Raise ValueError))
              | Some (true, _) =>
                (db, flash "This time slot is already booked. Please choose another time."
                       "error" (redirect_url_for "patient.create_appointment"))
              | Some (false, _) =>
                match fromisoformat (req_date req), strptime_HM (req_time req) with
                | Some d, Some t =>
                  match insert_appointment (appointments db) (user_id current_user)
                          (user_id doctor) d t BOOKED (req_notes req) with
                  | Some table =>
                    (with_appointments db table,
                     flash "Appointment booked successfully!" "success"
                       (redirect_url_for "patient.list_client_appointments"))
                  | None =>
                    (db, flash "An error occurred while booking the appointment. Please try again."
                           "error" (redirect_url_for "patient.create_appointment"))
                  end
                | _, _ => (db, respond (Raise ValueError))
                end
              end
            end
        end
      end
  end.

Definition _verify_appointment_ownership (appointment : MedicalAppointment)
    (client_id : Z) : bool :=
  bool_decide (patient_id appointment = client_id).

Definition reschedule_client_appointment (db : Database)
    (current_user : SystemUser) (i : Z) (method : Method)
    (req : BookingRequest) : Database * Response :=
  require_client_access current_user db
  match get_appointment (appointments db) i with
  | None => (db, respond (Abort 404))
  | Some appointment =>
    if negb (_verify_appointment_ownership appointment (user_id current_user)) then
      (db, flash "Access denied. This appointment does not belong to you." "error"
             (redirect_url_for "patient.list_client_appointments"))
    else if decide (status appointment ≠ BOOKED) then
      (db, flash "Only booked appointments can be rescheduled." "error"
             (redirect_url_for "patient.view_appointment_details"))
    else
      match method with
      | GET => (db, respond (Render "patient/reschedule_appointment.html"))
      | POST =>
        if negb (truthy (req_date req) && truthy (req_time req)) then
          (db, flash "Please select both date and time." "error"
                 (Render "patient/reschedule_appointment.html"))
        else
          match get_user (users db) (doctor_id appointment) with
          | None => (db, respond (Raise AttributeError))
          | Some doctor =>
            match _validate_doctor_availability doctor (req_date req) (req_time req) with
            | (false, error_message) =>
              (db, flash (default "None" error_message) "error"
                     (Render "patient/reschedule_appointment.html"))
            | (true, _) =>
              match verify_slot_availability (appointments db) (doctor_id appointment)
                      (req_date req) (req_time req) (Some (id appointment)) with
              | None => (db, respond (Raise ValueError))
              | Some (true, _) =>
                (db, flash "This time slot is already booked. Please choose another time."
                       "error" (Render "patient/reschedule_appointment.html"))
              | Some (false, _) =>
                match fromisoformat (req_date req), strptime_HM (req_time req) with
                | Some d, Some t =>
                  match update_date_time (appointments db) appointment d t with
                  | Some table =>
                    (with_appointments db table,
                     flash "Appointment rescheduled successfully!" "success"
                       (redirect_url_for "patient.view_appointment_details"))
                  | None => (db, respond (Raise IntegrityError))
                  end
                | _, _ => (db, respond (Raise ValueError))
                end
              end
            end
          end
      end
  end.

Definition cancel_client_appointment (db : Database)
    (current_user : SystemUser) (i : Z) : Database * Response :=
  require_client_access current_user db
  match get_appointment (appointments db) i with
  | None => (db, respond (Abort 404))
  | Some appointment =>
    if negb (_verify_appointment_ownership appointment (user_id current_user)) then
      (db, flash "Access denied. This appointment does not belong to you." "error"
             (redirect_url_for "patient.list_client_appointments"))
    else if decide (status appointment ≠ BOOKED) then
      (db, flash "Only booked appointments can be cancelled." "error"
             (redirect_url_for "patient.view_appointment_details"))
    else
      let '(can_transition, reason) := can_transition_to appointment CANCELLED in
      if negb can_transition then
        (db, flash ("Cannot cancel appointment: " +:+ default "None" reason) "error"
               (redirect_url_for "patient.view_appointment_details"))
      else
        (with_appointments db
           (update_row (appointments db) (set_status appointment CANCELLED)),
         flash "Appointment cancelled successfully!" "success"
           (redirect_url_for "patient.list_client_appointments"))
  end.

End handlers.
End patient.

(** ** [app/routes/doctor.py] *)

(** The dictionary built by [_extract_treatment_data] from the form: every
    key is present and every value has been stripped. *)
Record TreatmentData := {
  td_visit_type : string;
  td_tests_done : string;
  td_diagnosis : string;
  td_prescription : string;
  td_medicines : string;
  td_notes : string
}.

Module doctor.

Definition require_physician_access (current_user : SystemUser) (db : Database)
    (func : Database * Response) : Database * Response :=
  if decide (role current_user ≠ DOCTOR) then
    (db, flash "Access denied. Doctor only." "error" (redirect_url_for "index"))
  else func.

Definition _verify_appointment_ownership (appointment : MedicalAppointment)
    (physician_id : Z) : bool :=
  bool_decide (doctor_id appointment = physician_id).

(** The attribute assignments of [_create_or_update_treatment_record]. *)
Definition fill_treatment (t_id a_id : Z) (treatment_data : TreatmentData)
  : TreatmentRecord :=
  {| treatment_id := t_id; appointment_id := a_id;
     visit_type := td_visit_type treatment_data;
     tests_done := td_tests_done treatment_data;
     diagnosis := td_diagnosis treatment_data;
     prescription := td_prescription treatment_data;
     medicines := td_medicines treatment_data;
     treatment_notes := td_notes treatment_data |}.

(** Returns the table of treatments as the session will commit it. *)
Definition _create_or_update_treatment_record (table : list TreatmentRecord)
    (a_id : Z) (treatment_data : TreatmentData) : list TreatmentRecord :=
  match head (filter (λ t, appointment_id t = a_id) table) with
  | Some treatment =>
    (λ t, if decide (treatment_id t = treatment_id treatment)
          then fill_treatment (treatment_id t) (appointment_id t) treatment_data
          else t) <$> table
  | None =>
    table ++ [fill_treatment (next_id (treatment_id <$> table)) a_id treatment_data]
  end.

Definition mark_appointment_completed (db : Database)
    (current_user : SystemUser) (i : Z) (method : Method)
    (treatment_data : TreatmentData) : Database * Response :=
  require_physician_access current_user db
  match get_appointment (appointments db) i with
  | None => (db, respond (Abort 404))
  | Some appointment =>
    if negb (_verify_appointment_ownership appointment (user_id current_user)) then
      (db, flash "Access denied. This appointment is not assigned to you." "error"
             (redirect_url_for "doctor.list_physician_appointments"))
    else if decide (status appointment ≠ BOOKED) then
      (db, flash "This appointment is already completed or cancelled." "error"
             (redirect_url_for "doctor.view_appointment_details"))
    else
      match method with
      | GET => (db, respond (Render "doctor/complete_appointment.html"))
      | POST =>
        if negb (truthy (td_diagnosis treatment_data)) then
          (db, flash "Diagnosis is required." "error"
                 (Render "doctor/complete_appointment.html"))
        else
          let '(can_transition, reason) := can_transition_to appointment COMPLETED in
          if negb can_transition then
            (db, flash ("Cannot complete appointment: " +:+ default "None" reason)
                   "error" (Render "doctor/complete_appointment.html"))
          else
            ({| users := users db;
                appointments :=
                  update_row (appointments db) (set_status appointment COMPLETED);
                treatments :=
                  _create_or_update_treatment_record (treatments db)
                    (id appointment) treatment_data |},
             flash "Appointment marked as completed and treatment record saved!"
               "success" (redirect_url_for "doctor.view_appointment_details"))
      end
  end.

Definition cancel_physician_appointment (db : Database)
    (current_user : SystemUser) (i : Z) : Database * Response :=
  require_physician_access current_user db
  match get_appointment (appointments db) i with
  | None => (db, respond (Abort 404))
  | Some appointment =>
    if negb (_verify_appointment_ownership appointment (user_id current_user)) then
      (db, flash "Access denied. This appointment is not assigned to you." "error"
             (redirect_url_for "doctor.list_physician_appointments"))
    else if decide (status appointment ≠ BOOKED) then
      (db, flash "Only booked appointments can be cancelled." "error"
             (redirect_url_for "doctor.view_appointment_details"))
    else
      let '(can_transition, reason) := can_transition_to appointment CANCELLED in
      if negb can_transition then
        (db, flash ("Cannot cancel appointment: " +:+ default "None" reason) "error"
               (redirect_url_for "doctor.view_appointment_details"))
      else
        (with_appointments db
           (update_row (appointments db) (set_status appointment CANCELLED)),
         flash "Appointment cancelled successfully!" "success"
           (redirect_url_for "doctor.view_appointment_details"))
  end.

End doctor.

(** ** [app/routes/admin.py] *)

(** [str.upper] on ASCII letters. *)
Definition upper_ascii (c : ascii) : ascii :=
  let n := nat_of_ascii c in
  if bool_decide (97 ≤ n ≤ 122)%nat then ascii_of_nat (n - 32) else c.

Fixpoint upper (s : string) : string :=
  match s with
  | EmptyString => EmptyString
  | String c rest => String (upper_ascii c) (upper rest)
  end.

(** [AppointmentStatus[name]]: lookup of a member by name; [None] is the
    [KeyError]. *)
Definition AppointmentStatus_getitem (name : string) : option AppointmentState :=
  if decide (name = "BOOKED") then Some BOOKED
  else if decide (name = "COMPLETED") then Some COMPLETED
  else if decide (name = "CANCELLED") then Some CANCELLED
  else None.

Module admin.

Definition require_administrator_access (current_user : SystemUser)
    (db : Database) (func : Database * Response) : Database * Response :=
  let user_role := role current_user in
  let is_admin := bool_decide (user_role = ADMIN) in
  if negb is_admin then
    (db, flash "Access denied. Admin only." "error" (redirect_url_for "index"))
  else func.

Definition modify_appointment_status (db : Database)
    (current_user : SystemUser) (a_id : Z) (new_status_string : string)
  : Database * Response :=
  require_administrator_access current_user db
  match get_appointment (appointments db) a_id with
  | None => (db, respond (Abort 404))
  | Some appointment =>
    let valid_statuses := ["Booked"; "Completed"; "Cancelled"] in
    if negb (truthy new_status_string)
       || bool_decide (new_status_string ∉ valid_statuses) then
      (db, flash "Invalid status selected." "error"
             (redirect_url_for "admin.view_appointment"))
    else
      match AppointmentStatus_getitem (upper new_status_string) with
      | None =>
        (db, flash "Invalid status value." "error"
               (redirect_url_for "admin.view_appointment"))
      | Some new_status =>
        let previous_status := status appointment in
        let '(can_transition, reason) := can_transition_to appointment new_status in
        let message :=
          if negb can_transition then
            ("Status changed from " +:+ value previous_status +:+ " to "
               +:+ value new_status +:+ ". Note: " +:+ default "None" reason,
             "warning")
          else
            ("Appointment status updated from " +:+ value previous_status
               +:+ " to " +:+ value new_status +:+ " successfully!",
             "success") in
        (with_appointments db
           (update_row (appointments db) (set_status appointment new_status)),
         {| flashed := [message];
            outcome := redirect_url_for "admin.view_appointment" |})
      end
  end.

(** [db.session.delete(appointment)] cascades to the treatment record of
    the appointment ([cascade='all, delete-orphan']). *)
Definition remove_appointment (db : Database) (current_user : SystemUser)
    (a_id : Z) : Database * Response :=
  require_administrator_access current_user db
  match get_appointment (appointments db) a_id with
  | None => (db, respond (Abort 404))
  | Some appointment =>
    if decide (status appointment = COMPLETED) then
      (db, flash "Cannot delete completed appointments. They are permanent medical records."
             "error" (redirect_url_for "admin.view_appointment"))
    else
      ({| users := users db;
          appointments := filter (λ a, id a ≠ id appointment) (appointments db);
          treatments :=
            filter (λ t, appointment_id t ≠ id appointment) (treatments db) |},
       flash "Appointment deleted successfully!" "success"
         (redirect_url_for "admin.list_all_appointments"))
  end.

End admin.

(** ** A concrete runtime

    The properties below hold for every [PyRuntime].  To run the handlers
    on examples, this runtime reads the canonical forms only: a non-empty
    string of decimal digits, [YYYY-MM-DD] and [HH:MM].  On these forms it
    returns what the Python functions return. *)

Definition digit (c : ascii) : option Z :=
  let n := nat_of_ascii c in
  if bool_decide (48 ≤ n ≤ 57)%nat then Some (Z.of_nat (n - 48)) else None.

Fixpoint digits (s : string) (acc : Z) : option Z :=
  match s with
  | EmptyString => Some acc
  | String c rest => d ← digit c; digits rest (10 * acc + d)
  end.

Definition decimal (s : string) : option Z :=
  if decide (s = "") then None else digits s 0.

Definition is_leap (y : Z) : bool :=
  bool_decide (y mod 4 = 0 ∧ (y mod 100 ≠ 0 ∨ y mod 400 = 0)).

Definition days_in_month (y m : Z) : Z :=
  if decide (m = 2) then (if is_leap y then 29 else 28)
  else if decide (m ∈ [4; 6; 9; 11]) then 30
  else 31.

Definition iso_date (s : string) : option pydate :=
  match s with
  | String y1 (String y2 (String y3 (String y4 (String "-"
      (String m1 (String m2 (String "-" (String d1 (String d2 EmptyString))))))))) =>
    y ← decimal (String y1 (String y2 (String y3 (String y4 EmptyString))));
    m ← decimal (String m1 (String m2 EmptyString));
    d ← decimal (String d1 (String d2 EmptyString));
    if bool_decide (1 ≤ y ∧ 1 ≤ m ≤ 12 ∧ 1 ≤ d ≤ days_in_month y m)
    then Some (Date y m d) else None
  | _ => None
  end.

Definition hh_mm (s : string) : option pytime :=
  match s with
  | String h1 (String h2 (String ":" (String m1 (String m2 EmptyString)))) =>
    h ← decimal (String h1 (String h2 EmptyString));
    m ← decimal (String m1 (String m2 EmptyString));
    if bool_decide (h < 24 ∧ m < 60) then Some (Time h m) else None
  | _ => None
  end.

Definition canonical_runtime : PyRuntime :=
  {| py_int := decimal; fromisoformat := iso_date; strptime_HM := hh_mm |}.

(** ** Sequences of booking operations *)

Inductive Operation :=
  | Create (current_user : SystemUser) (method : Method) (req : BookingRequest)
  | Reschedule (current_user : SystemUser) (i : Z) (method : Method)
      (req : BookingRequest)
  | CancelByPatient (current_user : SystemUser) (i : Z)
  | CancelByDoctor (current_user : SystemUser) (i : Z)
  | Complete (current_user : SystemUser) (i : Z) (method : Method)
      (treatment_data : TreatmentData).

Definition step `{!PyRuntime} (db : Database) (op : Operation)
  : Database * Response :=
  match op with
  | Create u m req => patient.create_appointment db u m req
  | Reschedule u i m req => patient.reschedule_client_appointment db u i m req
  | CancelByPatient u i => patient.cancel_client_appointment db u i
  | CancelByDoctor u i => doctor.cancel_physician_appointment db u i
  | Complete u i m data => doctor.mark_appointment_completed db u i m data
  end.

(** The database after the requests [ops], served one after the other. *)
Definition run `{!PyRuntime} (db : Database) (ops : list Operation) : Database :=
  foldl (λ db op, (step db op).1) db ops.

(** ** Invariants of the appointment table *)

(** The booked appointments of a provider at a date and time. *)
Definition booked_at (table : list MedicalAppointment) (p : Z) (d : pydate)
    (t : pytime) : list MedicalAppointment :=
  filter (λ a, doctor_id a = p ∧ date a = d ∧ time a = t ∧ status a = BOOKED)
    table.

Definition exclusive (table : list MedicalAppointment) : Prop :=
  ∀ p d t, (length (booked_at table p d t) ≤ 1)%nat.

(** [id] is the primary key. *)
Definition primary_key (table : list MedicalAppointment) : Prop :=
  NoDup (id <$> table).

(** [appointment_id] is declared [unique] in [TreatmentRecord]. *)
Definition one_treatment_per_appointment (table : list TreatmentRecord) : Prop :=
  NoDup (appointment_id <$> table).

Definition consistent (db : Database) : Prop :=
  primary_key (appointments db) ∧ exclusive (appointments db).

(** The row that a booking by [patient] with [doctor] inserts. *)
Definition booked_row (table : list MedicalAppointment) (patient doctor : Z)
    (d : pydate) (t : pytime) (n : string) : MedicalAppointment :=
  {| id := next_id (id <$> table); patient_id := patient; doctor_id := doctor;
     date := d; time := t; status := BOOKED; notes := n |}.

(** ** The scenario of the specification

    Provider P (user 2) declares 09:00 and 10:00 on 2025-06-10; A (user 3)
    and B (user 4) are patients; user 1 is the administrator. *)

Definition clinic_hours : gmap string (list string) :=
  {[ "2025-06-10" := ["09:00"; "10:00"] ]}.

Definition administrator : SystemUser :=
  {| user_id := 1; role := ADMIN; physician_profile := None |}.

Definition provider_p : SystemUser :=
  {| user_id := 2; role := DOCTOR;
     physician_profile := Some {| availability := Some clinic_hours |} |}.

Definition patient_a : SystemUser :=
  {| user_id := 3; role := PATIENT; physician_profile := None |}.

Definition patient_b : SystemUser :=
  {| user_id := 4; role := PATIENT; physician_profile := None |}.

Definition clinic : Database :=
  {| users := [administrator; provider_p; patient_a; patient_b];
     appointments := []; treatments := [] |}.

Definition booking (doctor d t n : string) : BookingRequest :=
  {| req_doctor_id := doctor; req_date := d; req_time := t; req_notes := n;
     req_specialization := "" |}.

Definition june_10 : pydate := Date 2025 6 10.
Definition nine : pytime := Time 9 0.
Definition ten : pytime := Time 10 0.

(** A's appointment with P at 09:00, as booked, cancelled and completed. *)
Definition appointment_of_a (s : AppointmentState) : MedicalAppointment :=
  {| id := 1; patient_id := 3; doctor_id := 2; date := june_10; time := nine;
     status := s; notes := "cough" |}.

Definition clinic_with (s : AppointmentState) : Database :=
  {| users := users clinic; appointments := [appointment_of_a s];
     treatments := [] |}.

Definition flu : TreatmentData :=
  {| td_visit_type := "In-person"; td_tests_done := ""; td_diagnosis := "Flu";
     td_prescription := "rest"; td_medicines := ""; td_notes := "" |}.

(** The requests of the scenario, in order. *)
Definition scenario : list Operation :=
  [ Create patient_a POST (booking "2" "2025-06-10" "09:00" "cough");
    Create patient_b POST (booking "2" "2025-06-10" "09:00" "flu");
    Create patient_b POST (booking "2" "2025-06-10" "10:00" "flu");
    Reschedule patient_b 2 POST (booking "" "2025-06-10" "09:00" "");
    Complete provider_p 1 POST flu;
    CancelByPatient patient_b 2 ].

(** ** The seven-day horizon

    The availability code walks the dates [date.today() + timedelta(days=k)]
    for [k] in [range(7)] and keys the availability by
    [strftime('%Y-%m-%d')].  The date of the request, [today], is an
    argument of the embedding. *)

(** [d + timedelta(days=1)] in the proleptic Gregorian calendar. *)
Definition next_day (d : pydate) : pydate :=
  if decide (day d < days_in_month (year d) (month d)) then
    Date (year d) (month d) (day d + 1)
  else if decide (month d < 12) then Date (year d) (month d + 1) 1
  else Date (year d + 1) 1 1.

(** [d + timedelta(days=n)] *)
Fixpoint add_days (d : pydate) (n : nat) : pydate :=
  match n with
  | O => d
  | S k => add_days (next_day d) k
  end.

Definition digit_char (n : Z) : ascii := ascii_of_nat (48 + Z.to_nat n).

Definition two_digits (n : Z) : string :=
  String (digit_char (n / 10)) (String (digit_char (n mod 10)) EmptyString).

Definition four_digits (n : Z) : string :=
  String (digit_char (n / 1000))
    (String (digit_char (n / 100 mod 10)) (two_digits (n mod 100))).

(** [d.strftime('%Y-%m-%d')], for a year of four digits. *)
Definition strftime_Ymd (d : pydate) : string :=
  four_digits (year d) +:+ "-" +:+ two_digits (month d) +:+ "-"
    +:+ two_digits (day d).

(** [range(7)] *)
Definition range7 : list nat := seq 0 7.

(** A date that [datetime.date] can hold. *)
Definition valid_date (d : pydate) : Prop :=
  1 ≤ year d ≤ 9999 ∧ 1 ≤ month d ≤ 12 ∧
  1 ≤ day d ≤ days_in_month (year d) (month d).

(** Python's order on strings, and [sorted] on a list of strings. *)
Definition string_le (s1 s2 : string) : Prop := String.leb s1 s2 = true.

#[global] Instance string_le_dec s1 s2 : Decision (string_le s1 s2).
Proof. unfold string_le. apply _. Defined.

Definition sorted (l : list string) : list string := merge_sort string_le l.

(** [request.form.getlist]: the values submitted under a key, [[]] when the
    key is absent. *)
Definition MultiDict := string → list string.

(** The nested tests shared by the availability readers of [patient.py]:
    [doctor.physician_profile and doctor.physician_profile.availability],
    then [date_string in availability], then the slots under that key. *)
Definition declared_slots (doctor : SystemUser) (date_string : string)
  : option (list string) :=
  match physician_profile doctor with
  | None => None
  | Some profile =>
    match availability profile with
    | None => None
    | Some avail => if decide (avail = ∅) then None else avail !! date_string
    end
  end.

(** [if slots:] under those tests: the doctor declares at least one slot
    on that date. *)
Definition offers (doctor : SystemUser) (date_string : string) : Prop :=
  match declared_slots doctor date_string with
  | Some slots => slots ≠ []
  | None => False
  end.

#[global] Instance offers_dec doctor date_string :
  Decision (offers doctor date_string).
Proof. unfold offers. destruct (declared_slots doctor date_string); apply _. Defined.

(** Assigning [physician_profile.availability] on the user [uid] and
    committing. *)
Definition set_availability (table : list SystemUser) (uid : Z)
    (availability_data : gmap string (list string)) : list SystemUser :=
  (λ u, if decide (user_id u = uid) then
          {| user_id := user_id u; role := role u;
             physician_profile :=
               Some {| availability := Some availability_data |} |}
        else u) <$> table.

Definition with_users (db : Database) (t : list SystemUser) : Database :=
  {| users := t; appointments := appointments db; treatments := treatments db |}.

(** ** Availability readers of [app/routes/patient.py] *)

Module patient_availability.

Definition _build_doctor_availability_data (today : pydate)
    (doctors : list SystemUser)
  : list (SystemUser * gmap string (list string)) :=
  foldl (λ doctor_availability doctor,
    match physician_profile doctor with
    | None => doctor_availability
    | Some profile =>
      match availability profile with
      | None => doctor_availability
      | Some avail =>
        if decide (avail = ∅) then doctor_availability
        else
          let availability_data :=
            foldl (λ data day_offset,
              let check_date := add_days today day_offset in
              let date_string := strftime_Ymd check_date in
              match avail !! date_string with
              | Some slots =>
                if decide (slots ≠ []) then <[date_string := slots]> data
                else data
              | None => data
              end) ∅ range7 in
          if decide (availability_data ≠ ∅) then
            doctor_availability ++ [(doctor, availability_data)]
          else doctor_availability
      end
    end) [] doctors.

Definition _filter_doctors_by_date (doctors : list SystemUser)
    (target_date : pydate) : list (SystemUser * list string) :=
  let date_string := strftime_Ymd target_date in
  foldl (λ available_doctors doctor,
    match declared_slots doctor date_string with
    | Some slots =>
      if decide (slots ≠ []) then available_doctors ++ [(doctor, slots)]
      else available_doctors
    | None => available_doctors
    end) [] doctors.

(** The loop returns at the first offset whose date has slots. *)
Definition _find_next_available_date (today : pydate) (doctor : SystemUser)
  : option pydate :=
  add_days today <$>
    head (filter (λ day_offset,
                    offers doctor (strftime_Ymd (add_days today day_offset)))
            range7).

End patient_availability.
(** ** Availability forms of [app/routes/doctor.py] and [app/routes/admin.py] *)

Module doctor_availability.

Definition morning_slots : list string :=
  ["08:00"; "09:00"; "10:00"; "11:00"; "12:00"].

Definition evening_slots : list string :=
  ["16:00"; "17:00"; "18:00"; "19:00"; "20:00"; "21:00"].

Definition _extract_availability_from_form (today : pydate) (form : MultiDict)
  : gmap string (list string) :=
  foldl (λ availability_data day_offset,
    let target_date := add_days today day_offset in
    let date_string := strftime_Ymd target_date in
    let selected_slots := form ("slots_" +:+ date_string) in
    let time_slots :=
      (if decide ("08:00-12:00" ∈ selected_slots) then morning_slots else [])
      ++ (if decide ("16:00-21:00" ∈ selected_slots) then evening_slots else []) in
    <[date_string := if decide (time_slots ≠ []) then sorted time_slots else []]>
      availability_data) ∅ range7.

Definition manage_availability (db : Database) (current_user : SystemUser)
    (method : Method) (today : pydate) (form : MultiDict)
  : Database * Response :=
  doctor.require_physician_access current_user db
  match physician_profile current_user with
  | None =>
    (db, flash "Doctor profile not found." "error"
           (redirect_url_for "doctor.display_physician_dashboard"))
  | Some _ =>
    match method with
    | POST =>
      let availability_data := _extract_availability_from_form today form in
      (with_users db
         (set_availability (users db) (user_id current_user) availability_data),
       flash "Availability updated successfully!" "success"
         (redirect_url_for "doctor.manage_availability"))
    | GET => (db, respond (Render "doctor/availability.html"))
    end
  end.

(** The view as registered: [@physician_blueprint.route('/availability')]
    names no [methods], so the rule accepts GET only and a POST is answered
    with 405 before the view is called. *)
Definition availability_route (db : Database) (current_user : SystemUser)
    (method : Method) (today : pydate) (form : MultiDict)
  : Database * Response :=
  match method with
  | GET => manage_availability db current_user GET today form
  | POST => (db, respond (Abort 405))
  end.

End doctor_availability.

Module admin_availability.

Definition _generate_default_availability_schedule (today : pydate)
  : gmap string (list string) :=
  let default_slots := ["09:00"; "10:00"; "14:00"; "15:00"] in
  foldl (λ schedule day_offset,
    let target_date := add_days today day_offset in
    let date_string := strftime_Ymd target_date in
    <[date_string := default_slots]> schedule) ∅ range7.

Definition _extract_availability_from_form (today : pydate) (form : MultiDict)
  : gmap string (list string) :=
  foldl (λ availability_data day_offset,
    let target_date := add_days today day_offset in
    let date_string := strftime_Ymd target_date in
    let time_slots := form ("slots_" +:+ date_string) in
    <[date_string := if decide (time_slots ≠ []) then sorted time_slots else []]>
      availability_data) ∅ range7.

Definition manage_physician_availability (db : Database)
    (current_user : SystemUser) (doctor_id : Z) (method : Method)
    (today : pydate) (form : MultiDict) : Database * Response :=
  admin.require_administrator_access current_user db
  match get_user (users db) doctor_id with
  | None => (db, respond (Abort 404))
  | Some physician =>
    if bool_decide (role physician ≠ DOCTOR)
       || bool_decide (physician_profile physician = None) then
      (db, flash "Invalid doctor." "error"
             (redirect_url_for "admin.list_all_physicians"))
    else
      match method with
      | POST =>
        let availability_data := _extract_availability_from_form today form in
        (with_users db
           (set_availability (users db) (user_id physician) availability_data),
         flash "Availability updated successfully!" "success"
           (redirect_url_for "admin.list_all_physicians"))
      | GET => (db, respond (Render "admin/doctor_availability.html"))
      end
  end.

End admin_availability.

(** ** Every request that writes to the database *)

Inductive Request :=
  | Booking (op : Operation)
  | ModifyStatus (current_user : SystemUser) (i : Z) (new_status_string : string)
  | Remove (current_user : SystemUser) (i : Z)
  | DoctorAvailability (current_user : SystemUser) (method : Method)
      (today : pydate) (form : MultiDict)
  | AdminAvailability (current_user : SystemUser) (doctor_id : Z)
      (method : Method) (today : pydate) (form : MultiDict).

Definition serve `{!PyRuntime} (db : Database) (r : Request)
  : Database * Response :=
  match r with
  | Booking op => step db op
  | ModifyStatus u i s => admin.modify_appointment_status db u i s
  | Remove u i => admin.remove_appointment db u i
  | DoctorAvailability u m today form =>
    doctor_availability.availability_route db u m today form
  | AdminAvailability u d m today form =>
    admin_availability.manage_physician_availability db u d m today form
  end.

Definition serve_all `{!PyRuntime} (db : Database) (rs : list Request)
  : Database :=
  foldl (λ db r, (serve db r).1) db rs.

(** The table constraint on (doctor_id, date, time), for a whole table. *)
Definition slot_unique (table : list MedicalAppointment) : Prop :=
  ∀ a b, a ∈ table → b ∈ table → same_slot a b → id a = id b.

Definition schema_valid (db : Database) : Prop :=
  primary_key (appointments db) ∧ slot_unique (appointments db) ∧
  NoDup (treatment_id <$> treatments db) ∧
  one_treatment_per_appointment (treatments db).

(** A booking request with the notes left empty. *)
Definition without_notes (req : BookingRequest) : BookingRequest :=
  {| req_doctor_id := req_doctor_id req; req_date := req_date req;
     req_time := req_time req; req_notes := "";
     req_specialization := req_specialization req |}.

(** The date strings of the horizon, in order. *)
Definition horizon (today : pydate) : list string :=
  (λ day_offset, strftime_Ymd (add_days today day_offset)) <$> range7.

(** Forms and requests for the examples: the provider ticks the morning
    block of 2025-06-10; the administrator submits 10:00 and 09:00 for that
    day. *)
Definition morning_form : MultiDict :=
  λ key, if decide (key = "slots_2025-06-10") then ["08:00-12:00"] else [].

Definition admin_form : MultiDict :=
  λ key, if decide (key = "slots_2025-06-10") then ["10:00"; "09:00"] else [].

Definition office_day : list Request :=
  [ Booking (Create patient_a POST (booking "2" "2025-06-10" "09:00" "cough"));
    ModifyStatus administrator 1 "Cancelled";
    Booking (Create patient_b POST (booking "2" "2025-06-10" "09:00" "flu"));
    ModifyStatus administrator 1 "Booked";
    AdminAvailability administrator 2 POST june_10 admin_form;
    DoctorAvailability provider_p POST june_10 morning_form;
    Booking (Complete provider_p 1 POST flu);
    Remove administrator 1 ].

(** ** Lemmas on tables *)

Lemma foldr_max_ge (i : Z) (l : list Z) :
  i ≤ foldr Z.max i l ∧ ∀ x, x ∈ l → x ≤ foldr Z.max i l.
Proof.
  induction l as [|y l [IH1 IH2]]; simpl.
  - split; [lia|]. intros x Hx. by apply elem_of_nil in Hx.
  - split; [lia|]. intros x Hx. apply elem_of_cons in Hx as [->|Hx]; [lia|].
    specialize (IH2 x Hx). lia.
Qed.

Lemma next_id_above (ids : list Z) (x : Z) : x ∈ ids → x < next_id ids.
Proof.
  destruct ids as [|i rest]; intros Hx; [by apply elem_of_nil in Hx|].
  unfold next_id. destruct (foldr_max_ge i rest) as [H1 H2].
  apply elem_of_cons in Hx as [->|Hx]; [lia|]. specialize (H2 x Hx). lia.
Qed.

Lemma next_id_fresh (ids : list Z) : next_id ids ∉ ids.
Proof. intros Hin. apply next_id_above in Hin. lia. Qed.

Lemma head_filter_Some {A} (P : A → Prop) `{!∀ x, Decision (P x)}
    (l : list A) (x : A) :
  head (filter P l) = Some x → x ∈ l ∧ P x.
Proof.
  intros Hhead. apply head_Some_elem_of in Hhead.
  apply list_elem_of_filter in Hhead. tauto.
Qed.

Lemma head_filter_None {A} (P : A → Prop) `{!∀ x, Decision (P x)}
    (l : list A) :
  head (filter P l) = None ↔ ∀ x, x ∈ l → ¬ P x.
Proof.
  rewrite head_None. split.
  - intros Hnil x Hx HP. by eapply filter_nil_not_elem_of.
  - intros Hall. apply elem_of_nil_inv. intros x Hx.
    apply list_elem_of_filter in Hx as [HP Hx]. by eapply Hall.
Qed.

Lemma get_appointment_Some (table : list MedicalAppointment) (i : Z)
    (a : MedicalAppointment) :
  get_appointment table i = Some a → a ∈ table ∧ id a = i.
Proof. exact (head_filter_Some (λ a, id a = i) table a). Qed.

Lemma get_appointment_None (table : list MedicalAppointment) (i : Z) :
  get_appointment table i = None ↔ ∀ a, a ∈ table → id a ≠ i.
Proof. exact (head_filter_None (λ a, id a = i) table). Qed.

(** A filter after a row-wise update selects no more rows than a filter
    that every selected update comes from. *)
Lemma length_filter_fmap_le {A} (P Q : A → Prop)
    `{!∀ x, Decision (P x)} `{!∀ x, Decision (Q x)} (f : A → A) (l : list A) :
  (∀ a, a ∈ l → P (f a) → Q a) →
  (length (filter P (f <$> l)) ≤ length (filter Q l))%nat.
Proof.
  induction l as [|x l IH]; intros Himp; [done|].
  rewrite fmap_cons, !filter_cons.
  assert (∀ a, a ∈ l → P (f a) → Q a) as Htail.
  { intros a Ha. apply Himp. by right. }
  specialize (IH Htail).
  destruct (decide (P (f x))) as [HP|HP].
  - rewrite decide_True by (apply Himp; [by left|done]). simpl. lia.
  - destruct (decide (Q x)); simpl; lia.
Qed.

Lemma primary_key_at_most_one (table : list MedicalAppointment) (i : Z) :
  primary_key table → (length (filter (λ a, id a = i) table) ≤ 1)%nat.
Proof.
  unfold primary_key. induction table as [|x l IH]; intros Hnd; [simpl; lia|].
  rewrite fmap_cons in Hnd. apply NoDup_cons in Hnd as [Hnotin Hnd].
  rewrite filter_cons. destruct (decide (id x = i)) as [Heq|Hne].
  - assert (filter (λ a, id a = i) l = []) as ->; [|simpl; lia].
    apply elem_of_nil_inv. intros a Ha.
    apply list_elem_of_filter in Ha as [Hid Ha].
    apply Hnotin. rewrite Heq, <- Hid. by apply list_elem_of_fmap_2.
  - by apply IH.
Qed.

Lemma update_row_ids (table : list MedicalAppointment) (row : MedicalAppointment) :
  id <$> update_row table row = id <$> table.
Proof.
  unfold update_row. rewrite <- list_fmap_compose. apply list_fmap_ext.
  intros ? a _. simpl. by case_decide.
Qed.

Lemma update_row_primary_key table row :
  primary_key table → primary_key (update_row table row).
Proof. unfold primary_key. by rewrite update_row_ids. Qed.

Lemma insert_primary_key (table : list MedicalAppointment)
    (row : MedicalAppointment) :
  id row = next_id (id <$> table) →
  primary_key table → primary_key (table ++ [row]).
Proof.
  unfold primary_key. intros Hid Hnd. rewrite fmap_app. apply NoDup_app.
  split; [done|]. split; [|apply NoDup_singleton].
  intros x Hx Hx'. simpl in Hx'. apply list_elem_of_singleton in Hx'. subst x.
  rewrite Hid in Hx. by apply next_id_fresh in Hx.
Qed.

(** The conflict checker, as a statement about the rows of the table. *)
Lemma check_time_slot_availability_spec (table : list MedicalAppointment)
    (p : Z) (d : pydate) (t : pytime) (exclude : option Z) :
  check_time_slot_availability table p d t exclude = true ↔
  ∀ a, a ∈ table →
       ¬ (doctor_id a = p ∧ date a = d ∧ time a = t ∧ status a = BOOKED ∧
          ∀ x, exclude = Some x → id a ≠ x).
Proof.
  unfold check_time_slot_availability. rewrite bool_decide_eq_true.
  destruct exclude as [x|].
  - rewrite head_filter_None. split.
    + intros Hnone a Ha (Hp & Hd & Ht & Hs & Hx).
      apply (Hnone a); [|by apply Hx].
      apply list_elem_of_filter. by repeat split.
    + intros Hnone a Ha Hx. apply list_elem_of_filter in Ha as [(Hp & Hd & Ht & Hs) Ha].
      apply (Hnone a Ha). repeat split; try done. by intros ? [= <-].
  - rewrite head_filter_None. split.
    + intros Hnone a Ha (Hp & Hd & Ht & Hs & _). by apply (Hnone a Ha).
    + intros Hnone a Ha (Hp & Hd & Ht & Hs). apply (Hnone a Ha).
      by repeat split.
Qed.

(** ** What each handler can do to the database *)

Lemma insert_appointment_Some table patient doctor d t s n table' :
  insert_appointment table patient doctor d t s n = Some table' →
  table' = table ++ [{| id := next_id (id <$> table); patient_id := patient;
                        doctor_id := doctor; date := d; time := t; status := s;
                        notes := n |}].
Proof. unfold insert_appointment. case_match; by intros [= <-]. Qed.

Lemma update_date_time_Some table a d t table' :
  update_date_time table a d t = Some table' →
  table' = update_row table (set_date_time a d t) ∨
  (date a = d ∧ time a = t ∧ table' = table).
Proof.
  unfold update_date_time. case_decide as Hsame.
  - intros [= <-]. right. tauto.
  - case_match; [|done]. intros [= <-]. by left.
Qed.

Section handler_lemmas.
Context `{!PyRuntime}.

Lemma verify_slot_availability_Some table doc ds ts exclude conflict existing :
  patient.verify_slot_availability table doc ds ts exclude
    = Some (conflict, existing) →
  ∃ d t, fromisoformat ds = Some d ∧ strptime_HM ts = Some t ∧
         check_time_slot_availability table doc d t exclude = negb conflict.
Proof.
  unfold patient.verify_slot_availability, patient._normalize_date_time_inputs,
    is_slot_available.
  destruct (fromisoformat ds) as [d|]; [|done].
  destruct (strptime_HM ts) as [t|]; [|done]. simpl.
  intros [= <- _]. exists d, t. by rewrite negb_involutive.
Qed.

Lemma booking_form_flashed flashes req :
  flashed (patient.booking_form flashes req) = flashes.
Proof. unfold patient.booking_form. by repeat case_match. Qed.

Lemma create_appointment_inv db u m req db' r :
  patient.create_appointment db u m req = (db', r) →
  (db' = db ∧ ∀ msg, (msg, "success") ∉ flashed r) ∨
  ∃ did doctor d t,
    role u = PATIENT ∧
    py_int (req_doctor_id req) = Some did ∧
    get_user (users db) did = Some doctor ∧
    role doctor = DOCTOR ∧
    (patient._validate_doctor_availability doctor (req_date req) (req_time req)).1
      = true ∧
    fromisoformat (req_date req) = Some d ∧
    strptime_HM (req_time req) = Some t ∧
    check_time_slot_availability (appointments db) (user_id doctor) d t None
      = true ∧
    db' = with_appointments db
            (appointments db ++
               [booked_row (appointments db) (user_id u) (user_id doctor) d t
                  (match m with GET => "" | POST => req_notes req end)]) ∧
    flashed r = [("Appointment booked successfully!", "success")].
Proof.
  unfold patient.create_appointment, patient.require_client_access.
  intros Hcreate.
  repeat case_match; simplify_eq;
    try (left; split; [done|]; intros msg; rewrite ?booking_form_flashed;
         simpl; rewrite ?elem_of_cons, ?elem_of_nil; naive_solver);
    right;
    match goal with
    | Hv : patient.verify_slot_availability _ _ _ _ _ = Some _,
      Hi : insert_appointment _ _ _ _ _ _ _ = Some _ |- _ =>
      apply verify_slot_availability_Some in Hv as (d' & t' & Hd & Ht & Hfree);
      apply insert_appointment_Some in Hi as ->
    end;
    simplify_eq; eexists _, _, _, _;
    repeat split; eauto;
    try (by apply dec_stable); try (by match goal with
                | Hval : patient._validate_doctor_availability _ _ _ = _ |- _ =>
                  rewrite Hval end).
Qed.

Lemma reschedule_client_appointment_inv db u i m req db' r :
  patient.reschedule_client_appointment db u i m req = (db', r) →
  (db' = db ∧ ∀ msg, (msg, "success") ∉ flashed r) ∨
  ∃ a doctor d t table,
    role u = PATIENT ∧ m = POST ∧
    get_appointment (appointments db) i = Some a ∧
    patient_id a = user_id u ∧
    status a = BOOKED ∧
    get_user (users db) (doctor_id a) = Some doctor ∧
    (patient._validate_doctor_availability doctor (req_date req) (req_time req)).1
      = true ∧
    fromisoformat (req_date req) = Some d ∧
    strptime_HM (req_time req) = Some t ∧
    check_time_slot_availability (appointments db) (doctor_id a) d t
      (Some (id a)) = true ∧
    update_date_time (appointments db) a d t = Some table ∧
    db' = with_appointments db table ∧
    flashed r = [("Appointment rescheduled successfully!", "success")].
Proof.
  unfold patient.reschedule_client_appointment, patient.require_client_access,
    patient._verify_appointment_ownership.
  intros Hres.
  repeat case_match; simplify_eq;
    try (left; split; [done|]; intros msg;
         simpl; rewrite ?elem_of_cons, ?elem_of_nil; naive_solver);
    right;
    match goal with
    | Hv : patient.verify_slot_availability _ _ _ _ _ = Some _ |- _ =>
      apply verify_slot_availability_Some in Hv as (d' & t' & Hd & Ht & Hfree)
    end;
    simplify_eq; eexists _, _, _, _, _;
    repeat split; eauto;
    try (by apply dec_stable);
    try (by match goal with
            | Hval : patient._validate_doctor_availability _ _ _ = _ |- _ =>
              rewrite Hval end);
    try (match goal with
         | Hown : negb (bool_decide _) = false |- _ =>
           apply negb_false_iff, bool_decide_eq_true in Hown; done end).
Qed.

Lemma cancel_client_appointment_inv db u i db' r :
  patient.cancel_client_appointment db u i = (db', r) →
  (db' = db ∧ ∀ msg, (msg, "success") ∉ flashed r) ∨
  ∃ a,
    role u = PATIENT ∧
    get_appointment (appointments db) i = Some a ∧
    patient_id a = user_id u ∧
    status a = BOOKED ∧
    db' = with_appointments db
            (update_row (appointments db) (set_status a CANCELLED)) ∧
    flashed r = [("Appointment cancelled successfully!", "success")].
Proof.
  unfold patient.cancel_client_appointment, patient.require_client_access,
    patient._verify_appointment_ownership.
  intros Hres.
  repeat case_match; simplify_eq;
    try (left; split; [done|]; intros msg;
         simpl; rewrite ?elem_of_cons, ?elem_of_nil; naive_solver);
    right; eexists; repeat split; eauto;
    try (by apply dec_stable);
    try (match goal with
         | Hown : negb (bool_decide _) = false |- _ =>
           apply negb_false_iff, bool_decide_eq_true in Hown; done end).
Qed.

Lemma cancel_physician_appointment_inv db u i db' r :
  doctor.cancel_physician_appointment db u i = (db', r) →
  (db' = db ∧ ∀ msg, (msg, "success") ∉ flashed r) ∨
  ∃ a,
    role u = DOCTOR ∧
    get_appointment (appointments db) i = Some a ∧
    doctor_id a = user_id u ∧
    status a = BOOKED ∧
    db' = with_appointments db
            (update_row (appointments db) (set_status a CANCELLED)) ∧
    flashed r = [("Appointment cancelled successfully!", "success")].
Proof.
  unfold doctor.cancel_physician_appointment, doctor.require_physician_access,
    doctor._verify_appointment_ownership.
  intros Hres.
  repeat case_match; simplify_eq;
    try (left; split; [done|]; intros msg;
         simpl; rewrite ?elem_of_cons, ?elem_of_nil; naive_solver);
    right; eexists; repeat split; eauto;
    try (by apply dec_stable);
    try (match goal with
         | Hown : negb (bool_decide _) = false |- _ =>
           apply negb_false_iff, bool_decide_eq_true in Hown; done end).
Qed.

Lemma mark_appointment_completed_inv db u i m data db' r :
  doctor.mark_appointment_completed db u i m data = (db', r) →
  (db' = db ∧ ∀ msg, (msg, "success") ∉ flashed r) ∨
  ∃ a,
    role u = DOCTOR ∧ m = POST ∧
    get_appointment (appointments db) i = Some a ∧
    doctor_id a = user_id u ∧
    status a = BOOKED ∧
    td_diagnosis data ≠ "" ∧
    db' = {| users := users db;
             appointments :=
               update_row (appointments db) (set_status a COMPLETED);
             treatments :=
               doctor._create_or_update_treatment_record (treatments db)
                 (id a) data |} ∧
    flashed r =
      [("Appointment marked as completed and treatment record saved!",
        "success")].
Proof.
  unfold doctor.mark_appointment_completed, doctor.require_physician_access,
    doctor._verify_appointment_ownership, truthy.
  intros Hres.
  repeat case_match; simplify_eq;
    try (left; split; [done|]; intros msg;
         simpl; rewrite ?elem_of_cons, ?elem_of_nil; naive_solver);
    right; eexists; repeat split; eauto;
    try (by apply dec_stable);
    try (match goal with
         | Hown : negb (bool_decide _) = false |- _ =>
           apply negb_false_iff, bool_decide_eq_true in Hown; done end).
Qed.

End handler_lemmas.

(** ** Preservation of the invariants *)

Lemma exclusive_insert (table : list MedicalAppointment) (row : MedicalAppointment) :
  exclusive table →
  check_time_slot_availability table (doctor_id row) (date row) (time row) None
    = true →
  exclusive (table ++ [row]).
Proof.
  intros Hex Hfree p d t. unfold booked_at. rewrite filter_app, length_app.
  destruct (decide (doctor_id row = p ∧ date row = d ∧ time row = t))
    as [(<- & <- & <-)|Hother].
  - assert (filter (λ a, doctor_id a = doctor_id row ∧ date a = date row ∧
                         time a = time row ∧ status a = BOOKED) table = [])
      as ->.
    { apply elem_of_nil_inv. intros a Ha.
      apply list_elem_of_filter in Ha as [(Hp & Hd & Ht & Hs) Ha].
      pose proof (proj1 (check_time_slot_availability_spec _ _ _ _ _) Hfree)
        as Hnone.
      apply (Hnone a Ha). by repeat split. }
    simpl. pose proof (length_filter
      (λ a, doctor_id a = doctor_id row ∧ date a = date row ∧
            time a = time row ∧ status a = BOOKED) [row]) as Hle.
    simpl in Hle. lia.
  - rewrite filter_cons_False by tauto. simpl.
    specialize (Hex p d t). unfold booked_at in Hex. lia.
Qed.

Lemma exclusive_update_status (table : list MedicalAppointment)
    (a : MedicalAppointment) (s : AppointmentState) :
  s ≠ BOOKED → exclusive table → exclusive (update_row table (set_status a s)).
Proof.
  intros Hs Hex p d t. etrans; [|apply (Hex p d t)].
  unfold booked_at, update_row. apply length_filter_fmap_le.
  intros b _. case_decide; [|done]. simpl. tauto.
Qed.

Lemma exclusive_update_date_time (table : list MedicalAppointment)
    (a : MedicalAppointment) (d : pydate) (t : pytime) :
  primary_key table → exclusive table →
  check_time_slot_availability table (doctor_id a) d t (Some (id a)) = true →
  exclusive (update_row table (set_date_time a d t)).
Proof.
  intros Hpk Hex Hfree p d' t'.
  destruct (decide (doctor_id a = p ∧ d = d' ∧ t = t')) as [(<- & <- & <-)|Hother].
  - etrans; [|apply (primary_key_at_most_one table (id a) Hpk)].
    unfold booked_at, update_row. apply length_filter_fmap_le.
    intros b Hb. case_decide as Hid; [done|]. intros (Hp & Hd & Ht & Hs).
    pose proof (proj1 (check_time_slot_availability_spec _ _ _ _ _) Hfree)
      as Hnone.
    exfalso. apply (Hnone b Hb). repeat split; try done. by intros ? [= <-].
  - etrans; [|apply (Hex p d' t')].
    unfold booked_at, update_row. apply length_filter_fmap_le.
    intros b _. case_decide; [|done]. simpl. tauto.
Qed.

Section invariants.
Context `{!PyRuntime}.

Lemma consistent_step (db : Database) (op : Operation) :
  consistent db → consistent (step db op).1.
Proof.
  intros [Hpk Hex]. destruct (step db op) as [db' r] eqn:Hstep.
  destruct op; simpl in Hstep.
  - apply create_appointment_inv in Hstep
      as [[-> _]|(did & doc & d & t & _ & _ & _ & _ & _ & _ & _ & Hfree & -> & _)];
      [done|].
    split; simpl.
    + by apply insert_primary_key.
    + by apply exclusive_insert.
  - apply reschedule_client_appointment_inv in Hstep
      as [[-> _]|(a & doc & d & t & table & _ & _ & _ & _ & _ & _ & _ & _ & _
                  & Hfree & Hupd & -> & _)]; [done|].
    apply update_date_time_Some in Hupd as [->|(_ & _ & ->)]; [|done].
    split; simpl.
    + by apply update_row_primary_key.
    + by apply exclusive_update_date_time.
  - apply cancel_client_appointment_inv in Hstep
      as [[-> _]|(a & _ & _ & _ & _ & -> & _)]; [done|].
    split; simpl.
    + by apply update_row_primary_key.
    + by apply exclusive_update_status.
  - apply cancel_physician_appointment_inv in Hstep
      as [[-> _]|(a & _ & _ & _ & _ & -> & _)]; [done|].
    split; simpl.
    + by apply update_row_primary_key.
    + by apply exclusive_update_status.
  - apply mark_appointment_completed_inv in Hstep
      as [[-> _]|(a & _ & _ & _ & _ & _ & _ & -> & _)]; [done|].
    split; simpl.
    + by apply update_row_primary_key.
    + by apply exclusive_update_status.
Qed.

Lemma consistent_run (ops : list Operation) (db : Database) :
  consistent db → consistent (run db ops).
Proof.
  revert db. induction ops as [|op ops IH]; intros db Hdb; [done|].
  simpl. apply IH. by apply consistent_step.
Qed.

End invariants.

Lemma can_transition_to_from_booked (a : MedicalAppointment)
    (target : AppointmentState) :
  status a = BOOKED → can_transition_to a target = (true, None).
Proof.
  intros Hbooked. unfold can_transition_to, validate_status_transition.
  rewrite Hbooked. by destruct target.
Qed.

(** ** Reading a table after an update *)

Lemma filter_fmap_preserved {A} (P : A → Prop) `{!∀ x, Decision (P x)}
    (f : A → A) (l : list A) :
  (∀ a, P (f a) ↔ P a) → filter P (f <$> l) = f <$> filter P l.
Proof.
  intros Hf. induction l as [|x l IH]; [done|].
  rewrite fmap_cons, !filter_cons. destruct (decide (P x)) as [HP|HP].
  - rewrite decide_True by by apply Hf. by rewrite fmap_cons, IH.
  - rewrite decide_False by by rewrite Hf. done.
Qed.

Lemma get_appointment_update_row (table : list MedicalAppointment)
    (row : MedicalAppointment) (i : Z) :
  get_appointment (update_row table row) i =
    (λ a, if decide (id a = id row) then row else a) <$> get_appointment table i.
Proof.
  unfold get_appointment, update_row.
  rewrite (filter_fmap_preserved (λ a, id a = i)).
  - by destruct (filter (λ a, id a = i) table).
  - intros a. case_decide as Heq; [by rewrite Heq|done].
Qed.

Lemma get_appointment_app (table : list MedicalAppointment)
    (row a : MedicalAppointment) (i : Z) :
  get_appointment table i = Some a → get_appointment (table ++ [row]) i = Some a.
Proof.
  unfold get_appointment. rewrite filter_app.
  by destruct (filter (λ a, id a = i) table).
Qed.

Lemma get_appointment_removed (table : list MedicalAppointment) (i : Z) :
  get_appointment (filter (λ a, id a ≠ i) table) i = None.
Proof.
  apply get_appointment_None. intros a Ha.
  by apply list_elem_of_filter in Ha as [Hne _].
Qed.

Lemma filter_unique_appointment_id (table : list TreatmentRecord)
    (x : TreatmentRecord) :
  one_treatment_per_appointment table → x ∈ table →
  filter (λ t, appointment_id t = appointment_id x) table = [x].
Proof.
  unfold one_treatment_per_appointment.
  induction table as [|y l IH]; intros Hnd Hx; [by apply elem_of_nil in Hx|].
  rewrite fmap_cons in Hnd. apply NoDup_cons in Hnd as [Hnotin Hnd].
  apply elem_of_cons in Hx as [->|Hx].
  - rewrite filter_cons_True by done. f_equal.
    apply elem_of_nil_inv. intros z Hz.
    apply list_elem_of_filter in Hz as [Hid Hz].
    apply Hnotin. rewrite <- Hid. by apply list_elem_of_fmap_2.
  - rewrite filter_cons_False; [by apply IH|].
    intros Hid. apply Hnotin. rewrite Hid. by apply list_elem_of_fmap_2.
Qed.

(** After [_create_or_update_treatment_record], exactly one treatment is
    attached to the appointment and it carries the submitted data. *)
Lemma create_or_update_attaches_one (table : list TreatmentRecord) (a_id : Z)
    (treatment_data : TreatmentData) :
  one_treatment_per_appointment table →
  ∃ t_id,
    filter (λ t, appointment_id t = a_id)
      (doctor._create_or_update_treatment_record table a_id treatment_data)
    = [doctor.fill_treatment t_id a_id treatment_data].
Proof.
  intros Hone. unfold doctor._create_or_update_treatment_record.
  destruct (head (filter (λ t, appointment_id t = a_id) table))
    as [treatment|] eqn:Hhead.
  - apply (head_filter_Some (λ t, appointment_id t = a_id)) in Hhead
      as [Hin <-].
    exists (treatment_id treatment).
    rewrite (filter_fmap_preserved
               (λ t, appointment_id t = appointment_id treatment)).
    + rewrite (filter_unique_appointment_id table treatment Hone Hin).
      simpl. by rewrite decide_True.
    + intros t. by case_decide.
  - apply head_None in Hhead. rewrite filter_app, Hhead. simpl.
    exists (next_id (treatment_id <$> table)).
    by rewrite filter_cons_True.
Qed.

Lemma primary_key_inj (table : list MedicalAppointment)
    (a b : MedicalAppointment) :
  primary_key table → a ∈ table → b ∈ table → id a = id b → a = b.
Proof.
  unfold primary_key. induction table as [|x l IH]; intros Hnd Ha Hb Hid.
  { by apply elem_of_nil in Ha. }
  rewrite fmap_cons in Hnd. apply NoDup_cons in Hnd as [Hnotin Hnd].
  apply elem_of_cons in Ha as [->|Ha]; apply elem_of_cons in Hb as [->|Hb].
  - done.
  - exfalso. apply Hnotin. rewrite Hid. by apply list_elem_of_fmap_2.
  - exfalso. apply Hnotin. rewrite <- Hid. by apply list_elem_of_fmap_2.
  - by apply IH.
Qed.

Lemma update_row_same (table : list MedicalAppointment) (a : MedicalAppointment) :
  primary_key table → a ∈ table → update_row table a = table.
Proof.
  intros Hpk Ha. unfold update_row.
  transitivity ((λ b : MedicalAppointment, b) <$> table).
  - apply list_fmap_ext. intros ? b Hb. case_decide as Hid; [|done].
    symmetry. apply (primary_key_inj table); [done| |done|done].
    by eapply list_elem_of_lookup_2.
  - induction table as [|x l IH]; [done|].
    simpl. f_equal. apply NoDup_cons in Hpk as [Hx Hpk].
    clear -l. induction l as [|y l IH]; [done|]. simpl. by f_equal.
Qed.

Lemma set_date_time_same (a : MedicalAppointment) :
  set_date_time a (date a) (time a) = a.
Proof. by destruct a. Qed.

Lemma at_most_one_eq {A} (l : list A) (x y : A) :
  (length l ≤ 1)%nat → x ∈ l → y ∈ l → x = y.
Proof.
  destruct l as [|z [|z' l]]; simpl; intros Hlen Hx Hy; [|  |lia].
  - by apply elem_of_nil in Hx.
  - apply list_elem_of_singleton in Hx, Hy. congruence.
Qed.

(** A reschedule that moves the appointment leaves its former slot free. *)
Lemma former_slot_free (table : list MedicalAppointment)
    (a : MedicalAppointment) (d : pydate) (t : pytime) :
  exclusive table → a ∈ table → status a = BOOKED →
  (date a, time a) ≠ (d, t) →
  check_time_slot_availability (update_row table (set_date_time a d t))
    (doctor_id a) (date a) (time a) None = true.
Proof.
  intros Hex Ha Hbooked Hmoved. apply check_time_slot_availability_spec.
  intros b' Hb' (Hp & Hd & Ht & Hs & _).
  unfold update_row in Hb'. apply list_elem_of_fmap in Hb' as (b & -> & Hb).
  case_decide as Hid.
  - simpl in Hd, Ht. apply Hmoved. congruence.
  - apply Hid. simpl. f_equal.
    apply (at_most_one_eq (booked_at table (doctor_id a) (date a) (time a)));
      [apply Hex| |]; apply list_elem_of_filter; by repeat split.
Qed.

(** ** Completed and cancelled appointments under the booking operations *)

Section closed_appointments.
Context `{!PyRuntime}.

(** Overwriting the row of a booked appointment by a row with the same
    id does not touch the row of a closed one. *)
Lemma closed_after_update_row (table : list MedicalAppointment) (i : Z)
    (a b row : MedicalAppointment) (j : Z) :
  get_appointment table i = Some a → status a ≠ BOOKED →
  get_appointment table j = Some b → status b = BOOKED →
  id row = id b →
  get_appointment (update_row table row) i = Some a.
Proof.
  intros Hget Hclosed Hgetb Hbooked Hrow.
  rewrite get_appointment_update_row, Hget. simpl.
  case_decide as Hid; [|done]. exfalso.
  apply get_appointment_Some in Hget as Ha.
  apply get_appointment_Some in Hgetb as Hb.
  destruct Ha as [_ Hi], Hb as [_ Hj].
  assert (i = j) as -> by congruence.
  rewrite Hget in Hgetb. injection Hgetb as ->. done.
Qed.

Lemma closed_stays_closed_step (db : Database) (op : Operation) (i : Z)
    (a : MedicalAppointment) :
  get_appointment (appointments db) i = Some a → status a ≠ BOOKED →
  get_appointment (appointments (step db op).1) i = Some a.
Proof.
  intros Hget Hclosed. destruct (step db op) as [db' r] eqn:Hstep.
  destruct op; simpl in Hstep.
  - apply create_appointment_inv in Hstep
      as [[-> _]|(? & ? & ? & ? & _ & _ & _ & _ & _ & _ & _ & _ & -> & _)];
      [done|].
    simpl. by apply get_appointment_app.
  - apply reschedule_client_appointment_inv in Hstep
      as [[-> _]|(b & ? & d & t & table & _ & _ & Hgetb & _ & Hbooked & _ & _
                  & _ & _ & _ & Hupd & -> & _)]; [done|].
    apply update_date_time_Some in Hupd as [->|(_ & _ & ->)]; [|done].
    simpl. by eapply closed_after_update_row.
  - apply cancel_client_appointment_inv in Hstep
      as [[-> _]|(b & _ & Hgetb & _ & Hbooked & -> & _)]; [done|].
    simpl. by eapply closed_after_update_row.
  - apply cancel_physician_appointment_inv in Hstep
      as [[-> _]|(b & _ & Hgetb & _ & Hbooked & -> & _)]; [done|].
    simpl. by eapply closed_after_update_row.
  - apply mark_appointment_completed_inv in Hstep
      as [[-> _]|(b & _ & _ & Hgetb & _ & Hbooked & _ & -> & _)]; [done|].
    simpl. by eapply closed_after_update_row.
Qed.

Lemma closed_stays_closed_run (ops : list Operation) (db : Database) (i : Z)
    (a : MedicalAppointment) :
  get_appointment (appointments db) i = Some a → status a ≠ BOOKED →
  get_appointment (appointments (run db ops)) i = Some a.
Proof.
  revert db. induction ops as [|op ops IH]; intros db Hget Hclosed; [done|].
  simpl. apply IH; [|done]. by apply closed_stays_closed_step.
Qed.

End closed_appointments.

(** ** Properties of the specification *)

(** The scenario, run: A holds 09:00 and is completed with one treatment;
    B is refused at 09:00, books 10:00, cannot move to 09:00 and cancels. *)
Example scenario_outcome :
  let final := @run canonical_runtime clinic scenario in
  appointments final =
    [appointment_of_a COMPLETED;
     {| id := 2; patient_id := 4; doctor_id := 2; date := june_10; time := ten;
        status := CANCELLED; notes := "flu" |}] ∧
  treatments final = [doctor.fill_treatment 1 1 flu] ∧
  booked_at (appointments (@run canonical_runtime clinic (take 3 scenario)))
    2 june_10 nine = [appointment_of_a BOOKED].
Proof. vm_compute. repeat split. Qed.

(** C1 (exclusivity).  From a database whose appointment table has [id] as
    its key and at most one booked appointment per provider, date and
    time, every sequence of Create, Reschedule, Cancel and Complete
    requests leaves at most one booked appointment for every provider,
    date and time. *)
Theorem exclusivity `{!PyRuntime} (db : Database) (ops : list Operation)
    (p : Z) (d : pydate) (t : pytime) :
  consistent db →
  (length (booked_at (appointments (run db ops)) p d t) ≤ 1)%nat.
Proof. intros Hdb. by apply (consistent_run ops db). Qed.

Lemma exclusivity_witness :
  consistent clinic ∧
  (length (booked_at
             (appointments (@run canonical_runtime clinic (take 3 scenario)))
             2 june_10 nine) ≤ 1)%nat.
Proof.
  assert (consistent clinic) as Hclinic.
  { split; [constructor|]. intros p d t. simpl. lia. }
  split; [exact Hclinic|].
  exact (@exclusivity canonical_runtime clinic (take 3 scenario) 2 june_10 nine
           Hclinic).
Defined.

(** C2 (lifecycle checker).  [validate_status_transition] allows every
    transition except Completed to Booked and Cancelled to Booked, which
    it rejects with the reason "Cannot change ... appointment back to
    Booked". *)
Theorem lifecycle_checker (self : MedicalAppointment)
    (target : AppointmentState) :
  validate_status_transition self target =
    if decide (status self ∈ [COMPLETED; CANCELLED] ∧ target = BOOKED)
    then (false, Some ("Cannot change " +:+ value (status self)
                         +:+ " appointment back to Booked"))
    else (true, None).
Proof.
  unfold validate_status_transition.
  destruct (status self), target; vm_compute; reflexivity.
Qed.

(** C4 (conflict checker).  [check_time_slot_availability] returns true if
    and only if no appointment of the table has the provider, the date,
    the time, status Booked and an id other than the excluded one; with no
    exclusion the condition on the id is void. *)
Theorem conflict_checker (table : list MedicalAppointment) (p : Z)
    (d : pydate) (t : pytime) (exclude : option Z) :
  check_time_slot_availability table p d t exclude = true ↔
  ¬ ∃ a, a ∈ table ∧ doctor_id a = p ∧ date a = d ∧ time a = t ∧
         status a = BOOKED ∧
         match exclude with Some x => id a ≠ x | None => True end.
Proof.
  rewrite check_time_slot_availability_spec. split.
  - intros Hnone (a & Ha & Hp & Hd & Ht & Hs & Hx). apply (Hnone a Ha).
    repeat split; try done. intros x ->. done.
  - intros Hnone a Ha (Hp & Hd & Ht & Hs & Hx). apply Hnone. exists a.
    repeat split; try done. destruct exclude; [by apply Hx|done].
Qed.

(** C10 (bypass flag).  With [bypass_validation=True], [change_status]
    sets the status to the target and reports success whatever the
    transition; with [bypass_validation=False], a transition that the
    checker rejects returns failure with the checker's reason and leaves
    the appointment as it was. *)
Theorem change_status_bypass (self : MedicalAppointment)
    (target : AppointmentState) :
  change_status self target true =
    (set_status self target,
     (true, "Status changed from " +:+ value (status self) +:+ " to "
              +:+ value target)) ∧
  ∀ reason, validate_status_transition self target = (false, reason) →
            ∃ message, reason = Some message ∧
                       change_status self target false = (self, (false, message)).
Proof.
  split; [done|]. intros reason Hrej. unfold change_status. simpl.
  rewrite Hrej. simpl. unfold validate_status_transition in Hrej.
  destruct (status self), target; vm_compute in Hrej; simplify_eq;
    eexists; (split; [reflexivity|]); reflexivity.
Qed.

Lemma change_status_bypass_witness :
  change_status (appointment_of_a COMPLETED) BOOKED true =
    (appointment_of_a BOOKED, (true, "Status changed from Completed to Booked")) ∧
  change_status (appointment_of_a COMPLETED) BOOKED false =
    (appointment_of_a COMPLETED,
     (false, "Cannot change Completed appointment back to Booked")).
Proof.
  destruct (change_status_bypass (appointment_of_a COMPLETED) BOOKED)
    as [Hbypass Hchecked].
  split; [exact Hbypass|].
  destruct (Hchecked (Some "Cannot change Completed appointment back to Booked")
              eq_refl) as (message & Hmessage & Hresult).
  injection Hmessage as <-. exact Hresult.
Defined.

(** C9 (administrative hard delete).  For an administrator and an existing
    appointment, the delete is refused and the database is unchanged when
    the appointment is Completed; a Booked or Cancelled appointment is
    removed (with its treatment record, if any) and every other
    appointment stays. *)
Theorem hard_delete_guard (db : Database) (u : SystemUser) (i : Z)
    (a : MedicalAppointment) :
  role u = ADMIN →
  get_appointment (appointments db) i = Some a →
  let result := admin.remove_appointment db u i in
  (status a = COMPLETED →
     result.1 = db ∧
     flashed result.2 =
       [("Cannot delete completed appointments. They are permanent medical records.",
         "error")]) ∧
  (status a ≠ COMPLETED →
     get_appointment (appointments result.1) i = None ∧
     appointments result.1 = filter (λ b, id b ≠ i) (appointments db) ∧
     treatments result.1 = filter (λ t, appointment_id t ≠ i) (treatments db) ∧
     users result.1 = users db ∧
     result.2 = flash "Appointment deleted successfully!" "success"
                  (Redirect "admin.list_all_appointments")).
Proof.
  intros Hadmin Hget result. subst result.
  unfold admin.remove_appointment, admin.require_administrator_access.
  rewrite Hadmin, Hget. simpl.
  apply get_appointment_Some in Hget as [_ <-].
  split; intros Hstatus.
  - by rewrite decide_True.
  - rewrite decide_False by done. simpl.
    split; [apply get_appointment_removed|done].
Qed.

Lemma hard_delete_guard_witness :
  (admin.remove_appointment (clinic_with COMPLETED) administrator 1).1
    = clinic_with COMPLETED ∧
  appointments (admin.remove_appointment (clinic_with CANCELLED) administrator 1).1
    = [].
Proof.
  split.
  - apply (hard_delete_guard (clinic_with COMPLETED) administrator 1
             (appointment_of_a COMPLETED)); reflexivity.
  - destruct (hard_delete_guard (clinic_with CANCELLED) administrator 1
                (appointment_of_a CANCELLED) eq_refl eq_refl) as [_ Hremoved].
    destruct Hremoved as (_ & Happointments & _); [discriminate|].
    rewrite Happointments. reflexivity.
Defined.

(** C6 (Complete).  On a POST by the provider of a Booked appointment: an
    empty diagnosis is refused with "Diagnosis is required." and the
    database is unchanged; a non-empty diagnosis sets the status to
    Completed and leaves exactly one treatment attached to the
    appointment, whose visit type, tests, diagnosis, prescription,
    medicines and notes are the submitted ones, field by field.  Both
    changes are part of the same result: whatever the request, the
    database is either unchanged or has both. *)
Theorem complete_appointment (db : Database) (u : SystemUser) (i : Z)
    (a : MedicalAppointment) (treatment_data : TreatmentData) :
  role u = DOCTOR →
  get_appointment (appointments db) i = Some a →
  doctor_id a = user_id u →
  status a = BOOKED →
  one_treatment_per_appointment (treatments db) →
  let result := doctor.mark_appointment_completed db u i POST treatment_data in
  let completed :=
    users result.1 = users db ∧
    appointments result.1 = update_row (appointments db) (set_status a COMPLETED) ∧
    get_appointment (appointments result.1) i = Some (set_status a COMPLETED) ∧
    ∃ t_id, filter (λ t, appointment_id t = i) (treatments result.1)
            = [{| treatment_id := t_id; appointment_id := i;
                  visit_type := td_visit_type treatment_data;
                  tests_done := td_tests_done treatment_data;
                  diagnosis := td_diagnosis treatment_data;
                  prescription := td_prescription treatment_data;
                  medicines := td_medicines treatment_data;
                  treatment_notes := td_notes treatment_data |}] in
  (td_diagnosis treatment_data = "" →
     result = (db, flash "Diagnosis is required." "error"
                     (Render "doctor/complete_appointment.html"))) ∧
  (td_diagnosis treatment_data ≠ "" →
     completed ∧
     flashed result.2 =
       [("Appointment marked as completed and treatment record saved!",
         "success")]) ∧
  (result.1 = db ∨ completed).
Proof.
  intros Hdoctor Hget Hown Hbooked Hone result completed.
  assert (td_diagnosis treatment_data ≠ "" →
          completed ∧
          flashed result.2 =
            [("Appointment marked as completed and treatment record saved!",
              "success")]) as Hdone.
  { intros Hdiag. subst completed result.
    unfold doctor.mark_appointment_completed, doctor.require_physician_access,
      doctor._verify_appointment_ownership, truthy.
    rewrite Hdoctor, Hget, Hown, Hbooked. simpl.
    rewrite bool_decide_eq_true_2 by done.
    rewrite (bool_decide_eq_true_2 _ Hdiag). simpl.
    rewrite (can_transition_to_from_booked a COMPLETED Hbooked). simpl.
    pose proof (get_appointment_Some _ _ _ Hget) as [_ Hid].
    repeat split.
    - rewrite get_appointment_update_row, Hget. simpl.
      by rewrite decide_True.
    - rewrite Hid.
      exact (create_or_update_attaches_one (treatments db) i treatment_data
               Hone). }
  split; [|split; [exact Hdone|]].
  - intros Hdiag. subst result.
    unfold doctor.mark_appointment_completed, doctor.require_physician_access,
      doctor._verify_appointment_ownership, truthy.
    rewrite Hdoctor, Hget, Hown, Hbooked, Hdiag. simpl.
    by rewrite bool_decide_eq_true_2.
  - destruct (decide (td_diagnosis treatment_data = "")) as [Hdiag|Hdiag].
    + left. subst result.
      unfold doctor.mark_appointment_completed, doctor.require_physician_access,
        doctor._verify_appointment_ownership, truthy.
      rewrite Hdoctor, Hget, Hown, Hbooked, Hdiag. simpl.
      by rewrite bool_decide_eq_true_2.
    + right. by apply Hdone.
Qed.

Lemma complete_appointment_witness :
  get_appointment
    (appointments
       (doctor.mark_appointment_completed (clinic_with BOOKED) provider_p 1
          POST flu).1) 1
    = Some (appointment_of_a COMPLETED) ∧
  ∃ t_id,
    filter (λ t, appointment_id t = 1)
      (treatments
         (doctor.mark_appointment_completed (clinic_with BOOKED) provider_p 1
            POST flu).1)
    = [{| treatment_id := t_id; appointment_id := 1;
          visit_type := "In-person"; tests_done := ""; diagnosis := "Flu";
          prescription := "rest"; medicines := ""; treatment_notes := "" |}].
Proof.
  destruct (complete_appointment (clinic_with BOOKED) provider_p 1
              (appointment_of_a BOOKED) flu eq_refl eq_refl eq_refl eq_refl
              (NoDup_nil_2 : one_treatment_per_appointment []))
    as (_ & Hfilled & _).
  destruct Hfilled as [(_ & _ & Hstatus & Hattached) _]; [discriminate|].
  split; [exact Hstatus|exact Hattached].
Defined.




(** C3 (a cancelled slot can be booked again): fails on the code.  A books
    P at 09:00 and cancels.  The conflict checker then reports the slot
    free and the slot is still offered, but the row of the cancelled
    appointment still holds the key (doctor_id, date, time) of the table
    constraint, so the INSERT of B's booking is rejected by the storage
    layer and the handler answers with its generic error. *)
Theorem cancelled_slot_cannot_be_rebooked :
  let cancelled :=
    @run canonical_runtime clinic
      [Create patient_a POST (booking "2" "2025-06-10" "09:00" "cough");
       CancelByPatient patient_a 1] in
  appointments cancelled = [appointment_of_a CANCELLED] ∧
  check_time_slot_availability (appointments cancelled) 2 june_10 nine None
    = true ∧
  patient._validate_doctor_availability provider_p "2025-06-10" "09:00"
    = (true, None) ∧
  @patient.create_appointment canonical_runtime cancelled patient_b POST
    (booking "2" "2025-06-10" "09:00" "flu")
  = (cancelled,
     flash "An error occurred while booking the appointment. Please try again."
       "error" (Redirect "patient.create_appointment")).
Proof. vm_compute. repeat split. Qed.

(** C5 as stated fails: a reschedule to the date and time that the
    appointment already has is accepted, and its slot is then still
    taken. *)
Lemma reschedule_same_slot_counterexample :
  let result :=
    @patient.reschedule_client_appointment canonical_runtime
      (clinic_with BOOKED) patient_a 1 POST
      (booking "" "2025-06-10" "09:00" "") in
  flashed result.2 = [("Appointment rescheduled successfully!", "success")] ∧
  appointments result.1 = [appointment_of_a BOOKED] ∧
  check_time_slot_availability (appointments result.1) 2 june_10 nine None
    = false.
Proof. vm_compute. repeat split. Qed.

(** C5, amended (reschedule preserves identity).  In a database where [id]
    is a key and no slot has two booked appointments: if the appointment
    is not Booked, the reschedule is refused with an error and the
    database is unchanged.  An accepted reschedule changes the date and time of
    that appointment only: its id, patient, provider, status and notes,
    every other appointment, the users and the treatments are unchanged;
    and when the new date and time differ from the former ones, the former
    slot is free immediately after. *)
Theorem reschedule_preserves_identity `{!PyRuntime} (db : Database)
    (u : SystemUser) (i : Z) (m : Method) (req : BookingRequest)
    (a : MedicalAppointment) :
  consistent db →
  get_appointment (appointments db) i = Some a →
  let result := patient.reschedule_client_appointment db u i m req in
  (status a ≠ BOOKED →
     result.1 = db ∧ ∃ message, flashed result.2 = [(message, "error")]) ∧
  (∀ message, (message, "success") ∈ flashed result.2 →
     status a = BOOKED ∧
     ∃ d t a',
       fromisoformat (req_date req) = Some d ∧
       strptime_HM (req_time req) = Some t ∧
       get_appointment (appointments result.1) i = Some a' ∧
       date a' = d ∧ time a' = t ∧
       id a' = id a ∧ patient_id a' = patient_id a ∧
       doctor_id a' = doctor_id a ∧ status a' = status a ∧
       notes a' = notes a ∧
       appointments result.1 = update_row (appointments db) a' ∧
       users result.1 = users db ∧
       treatments result.1 = treatments db ∧
       ((date a, time a) ≠ (d, t) →
        check_time_slot_availability (appointments result.1) (doctor_id a)
          (date a) (time a) None = true)).
Proof.
  intros [Hpk Hex] Hget result. split.
  - intros Hstatus. subst result.
    unfold patient.reschedule_client_appointment, patient.require_client_access.
    rewrite Hget.
    destruct (decide (role u ≠ PATIENT)); [simpl; eauto|].
    destruct (negb _); [simpl; eauto|].
    rewrite decide_True by done. simpl; eauto.
  - intros message Hsuccess.
    destruct result as [db' r] eqn:Hresult. subst result.
    apply reschedule_client_appointment_inv in Hresult as [[_ Hnone]|Hok].
    { by apply Hnone in Hsuccess. }
    destruct Hok as (a0 & doc & d & t & table & _ & _ & Hget0 & _ & Hbooked & _
                     & _ & Hd & Ht & _ & Hupd & -> & _).
    rewrite Hget in Hget0. injection Hget0 as <-.
    pose proof (get_appointment_Some _ _ _ Hget) as [Hin Hid].
    split; [done|]. exists d, t, (set_date_time a d t). simpl.
    assert (table = update_row (appointments db) (set_date_time a d t)) as ->.
    { apply update_date_time_Some in Hupd as [->|(<- & <- & ->)]; [done|].
      rewrite set_date_time_same. symmetry. by apply update_row_same. }
    repeat split; try done.
    + rewrite get_appointment_update_row, Hget. simpl. by rewrite decide_True.
    + intros Hmoved. by apply former_slot_free.
Qed.

Lemma reschedule_preserves_identity_witness :
  check_time_slot_availability
    (appointments
       (@patient.reschedule_client_appointment canonical_runtime
          (clinic_with BOOKED) patient_a 1 POST
          (booking "" "2025-06-10" "10:00" "")).1)
    2 june_10 nine None = true.
Proof.
  assert (consistent (clinic_with BOOKED)) as Hconsistent.
  { split; [apply NoDup_singleton|].
    intros p d t. apply (length_filter _ [appointment_of_a BOOKED]). }
  destruct (@reschedule_preserves_identity canonical_runtime
              (clinic_with BOOKED) patient_a 1 POST
              (booking "" "2025-06-10" "10:00" "") (appointment_of_a BOOKED)
              Hconsistent eq_refl) as [_ Haccepted].
  destruct (Haccepted "Appointment rescheduled successfully!")
    as (_ & d & t & a' & Hd & Ht & _ & _ & _ & _ & _ & _ & _ & _ & _ & _ & _
        & Hfree).
  { vm_compute. constructor. }
  vm_compute in Hd, Ht. injection Hd as <-. injection Ht as <-.
  apply Hfree. discriminate.
Defined.

(** C8 as stated fails: the administrative status update moves a Completed
    appointment back to Booked and only flashes the checker's reason as a
    warning. *)
Lemma admin_status_update_counterexample :
  let result :=
    admin.modify_appointment_status (clinic_with COMPLETED) administrator 1
      "Booked" in
  validate_status_transition (appointment_of_a COMPLETED) BOOKED
    = (false, Some "Cannot change Completed appointment back to Booked") ∧
  appointments result.1 = [appointment_of_a BOOKED] ∧
  flashed result.2 =
    [("Status changed from Completed to Booked. Note: Cannot change Completed appointment back to Booked",
      "warning")].
Proof. vm_compute. repeat split. Qed.

(** C8, amended (no time travel).  A Completed or Cancelled appointment is
    left as it is by every sequence of Create, Reschedule, Cancel and
    Complete requests, and [change_status] without bypass refuses to move
    it to Booked, with the checker's reason, and leaves it unchanged.  The
    administrative status update is the exception: asked for Booked, it
    sets the status to Booked and flashes the checker's reason as a
    warning. *)
Theorem no_time_travel `{!PyRuntime} (db : Database) (ops : list Operation)
    (i : Z) (a : MedicalAppointment) (admin_user : SystemUser) :
  get_appointment (appointments db) i = Some a →
  status a ≠ BOOKED →
  role admin_user = ADMIN →
  let reason :=
    "Cannot change " +:+ value (status a) +:+ " appointment back to Booked" in
  let result := admin.modify_appointment_status db admin_user i "Booked" in
  get_appointment (appointments (run db ops)) i = Some a ∧
  change_status a BOOKED false = (a, (false, reason)) ∧
  get_appointment (appointments result.1) i = Some (set_status a BOOKED) ∧
  flashed result.2 =
    [("Status changed from " +:+ value (status a) +:+ " to Booked. Note: "
        +:+ reason, "warning")].
Proof.
  intros Hget Hclosed Hadmin reason result.
  split; [by apply closed_stays_closed_run|].
  split.
  { subst reason. unfold change_status, validate_status_transition.
    by destruct (status a). }
  subst result reason.
  unfold admin.modify_appointment_status, admin.require_administrator_access.
  rewrite Hadmin, Hget. simpl.
  unfold can_transition_to, validate_status_transition.
  split.
  - destruct (status a); [done| |]; simpl;
      rewrite get_appointment_update_row, Hget; simpl; by rewrite decide_True.
  - by destruct (status a).
Qed.

Lemma no_time_travel_witness :
  get_appointment
    (appointments (@run canonical_runtime (clinic_with CANCELLED) scenario)) 1
    = Some (appointment_of_a CANCELLED) ∧
  get_appointment
    (appointments
       (admin.modify_appointment_status (clinic_with CANCELLED) administrator 1
          "Booked").1) 1
    = Some (appointment_of_a BOOKED).
Proof.
  destruct (@no_time_travel canonical_runtime (clinic_with CANCELLED) scenario
              1 (appointment_of_a CANCELLED) administrator eq_refl
              ltac:(discriminate) eq_refl) as (Hkept & _ & Hadmin & _).
  split; [exact Hkept|exact Hadmin].
Defined.

(** ** Further properties of the handlers *)

Lemma check_time_slot_availability_taken (table : list MedicalAppointment)
    (a : MedicalAppointment) (exclude : option Z) :
  a ∈ table → status a = BOOKED → (∀ x, exclude = Some x → id a ≠ x) →
  check_time_slot_availability table (doctor_id a) (date a) (time a) exclude
    = false.
Proof.
  intros Ha Hbooked Hx.
  destruct (check_time_slot_availability table (doctor_id a) (date a) (time a)
              exclude) eqn:Hcheck; [|done].
  pose proof (proj1 (check_time_slot_availability_spec _ _ _ _ _) Hcheck) as Hnone.
  exfalso. by apply (Hnone a Ha).
Qed.

Lemma slot_free_after_close (table : list MedicalAppointment)
    (a : MedicalAppointment) (s : AppointmentState) :
  exclusive table → a ∈ table → status a = BOOKED → s ≠ BOOKED →
  check_time_slot_availability (update_row table (set_status a s))
    (doctor_id a) (date a) (time a) None = true.
Proof.
  intros Hex Ha Hbooked Hs. apply check_time_slot_availability_spec.
  intros b' Hb' (Hp & Hd & Ht & Hst & _).
  unfold update_row in Hb'. apply list_elem_of_fmap in Hb' as (b & -> & Hb).
  case_decide as Hid; [done|].
  apply Hid. simpl. f_equal.
  apply (at_most_one_eq (booked_at table (doctor_id a) (date a) (time a)));
    [apply Hex| |]; apply list_elem_of_filter; by repeat split.
Qed.

(** X1.  [verify_slot_availability] raises exactly when a parser does.
    Otherwise its flag is the negation of the conflict checker, the flag
    is set exactly when an existing appointment is returned, and the
    returned appointment is a booked appointment of that provider at that
    date and time, other than the excluded one when the excluded id is not
    0 (the second query tests the id for truth, not for [None]). *)
Theorem verify_slot_availability_existing `{!PyRuntime}
    (table : list MedicalAppointment) (doc : Z) (ds ts : string)
    (exclude : option Z) :
  match patient.verify_slot_availability table doc ds ts exclude with
  | None => fromisoformat ds = None ∨ strptime_HM ts = None
  | Some (conflict, existing) =>
    ∃ d t,
      fromisoformat ds = Some d ∧ strptime_HM ts = Some t ∧
      conflict = negb (check_time_slot_availability table doc d t exclude) ∧
      (conflict = true ↔ is_Some existing) ∧
      ∀ a, existing = Some a →
           a ∈ table ∧ doctor_id a = doc ∧ date a = d ∧ time a = t ∧
           status a = BOOKED ∧
           ∀ x, exclude = Some x → x ≠ 0 → id a ≠ x
  end.
Proof.
  unfold patient.verify_slot_availability, patient._normalize_date_time_inputs,
    is_slot_available.
  destruct (fromisoformat ds) as [d|]; simpl; [|by left].
  destruct (strptime_HM ts) as [t|]; simpl; [|by right].
  exists d, t. split; [done|]. split; [done|]. split; [done|].
  destruct (check_time_slot_availability table doc d t exclude) eqn:Hcheck;
    simpl.
  { split; [|done]. split; [done|]. by intros [? ?]. }
  set (slot := λ a : MedicalAppointment,
         doctor_id a = doc ∧ date a = d ∧ time a = t ∧ status a = BOOKED).
  assert (∃ b, b ∈ table ∧ slot b ∧ ∀ x, exclude = Some x → id b ≠ x)
    as (b & Hb & Hslot & Hbx).
  { unfold check_time_slot_availability in Hcheck.
    apply bool_decide_eq_false in Hcheck.
    destruct exclude as [x|].
    - destruct (head (filter (λ a, id a ≠ x) (filter slot table)))
        as [b|] eqn:Hhead; [|done].
      apply (head_filter_Some (λ a, id a ≠ x)) in Hhead as [Hin Hne].
      apply list_elem_of_filter in Hin as [Hslot Hin].
      exists b. split; [done|]. split; [done|]. by intros ? [= <-].
    - destruct (head (filter slot table)) as [b|] eqn:Hhead; [|done].
      apply (head_filter_Some slot) in Hhead as [Hin Hslot].
      exists b. split; [done|]. split; [done|]. done. }
  split.
  - split; [|done]. intros _.
    destruct exclude as [x|]; [destruct (decide (x = 0))|].
    + destruct (head (filter slot table)) eqn:Hhead; [done|].
      exfalso. by apply (proj1 (head_filter_None slot table) Hhead b).
    + destruct (head (filter (λ a, id a ≠ x) (filter slot table))) eqn:Hhead;
        [done|].
      exfalso.
      apply (proj1 (head_filter_None (λ a, id a ≠ x) (filter slot table)) Hhead b);
        [by apply list_elem_of_filter|by apply Hbx].
    + destruct (head (filter slot table)) eqn:Hhead; [done|].
      exfalso. by apply (proj1 (head_filter_None slot table) Hhead b).
  - intros a Hexisting.
    destruct exclude as [x|]; [destruct (decide (x = 0))|].
    + apply (head_filter_Some slot) in Hexisting as [Hin (? & ? & ? & ?)].
      repeat split; try done. by intros ? [= <-].
    + apply (head_filter_Some (λ a, id a ≠ x)) in Hexisting as [Hin Hne].
      apply list_elem_of_filter in Hin as [(? & ? & ? & ?) Hin].
      repeat split; try done. by intros ? [= <-].
    + apply (head_filter_Some slot) in Hexisting as [Hin (? & ? & ? & ?)].
      by repeat split.
Qed.

(** X2.  The availability check of a booking accepts a date and time
    exactly when the provider's availability has the date as a key and the
    time in the list under it.  It answers "Selected time slot is not
    available" exactly when the date is a key but the time is not listed,
    and "Doctor is not available on this date." in every other case (no
    profile, no availability, or no such key). *)
Theorem declared_availability_spec (doctor : SystemUser) (ds ts : string) :
  let r := patient._validate_doctor_availability doctor ds ts in
  let listed (P : list string → Prop) :=
    ∃ profile avail slots,
      physician_profile doctor = Some profile ∧
      availability profile = Some avail ∧
      avail !! ds = Some slots ∧ P slots in
  (r = (true, None) ↔ listed (λ slots, ts ∈ slots)) ∧
  (r = (false, Some "Selected time slot is not available. Please choose another time.")
     ↔ listed (λ slots, ts ∉ slots)) ∧
  (r = (false, Some "Doctor is not available on this date.")
     ↔ ¬ listed (λ _, True)).
Proof.
  intros r listed. subst r listed.
  unfold patient._validate_doctor_availability.
  repeat case_match; subst; (split; [|split]); split;
    try done; try naive_solver;
    try (intros (? & ? & ? & ? & ? & Hlook & ?); simplify_eq;
         by rewrite lookup_empty in Hlook);
    try (intros _ (? & ? & ? & ? & ? & Hlook & ?); simplify_eq;
         by rewrite lookup_empty in Hlook).
Qed.

(** X3.  The GET shortcut of the booking page (doctor, date and time in the
    query string) leaves the database exactly as a POST of the same
    request with empty notes does. *)
Theorem create_get_books_like_post `{!PyRuntime} (db : Database)
    (u : SystemUser) (req : BookingRequest) :
  (patient.create_appointment db u GET req).1 =
  (patient.create_appointment db u POST (without_notes req)).1.
Proof.
  unfold patient.create_appointment, patient.require_client_access. simpl.
  repeat case_match; simplify_eq; simpl in *; try done; congruence.
Qed.

(** X4.  Booking is not idempotent: once a POST has booked a slot, the same
    request sent again, by the same or by any other patient, is refused
    with the "already booked" message and adds no row. *)
Theorem create_retry_refused `{!PyRuntime} (db db' : Database)
    (u u' : SystemUser) (req : BookingRequest) (r : Response)
    (message : string) :
  patient.create_appointment db u POST req = (db', r) →
  (message, "success") ∈ flashed r →
  role u' = PATIENT →
  patient.create_appointment db' u' POST req =
    (db', flash "This time slot is already booked. Please choose another time."
            "error" (Redirect "patient.create_appointment")).
Proof.
  intros Hcreate Hsuccess Hpatient.
  unfold patient.create_appointment, patient.require_client_access in Hcreate.
  repeat case_match; simplify_eq; simpl in Hsuccess;
    try (rewrite ?elem_of_cons, ?elem_of_nil in Hsuccess; naive_solver).
  match goal with
  | Hi : insert_appointment _ _ _ _ _ _ _ = Some _ |- _ =>
    apply insert_appointment_Some in Hi as ->
  end.
  unfold patient.create_appointment, patient.require_client_access. simpl.
  rewrite decide_False by (rewrite Hpatient; auto).
  repeat match goal with
  | H : negb _ = false |- _ => rewrite H; clear H
  | H : py_int _ = Some _ |- _ => rewrite H; clear H
  | H : get_user _ _ = Some _ |- _ => rewrite H; clear H
  | H : decide (role _ ≠ DOCTOR) = _ |- _ => rewrite H; clear H
  | H : patient._validate_doctor_availability _ _ _ = _ |- _ => rewrite H; clear H
  end.
  unfold patient.verify_slot_availability, patient._normalize_date_time_inputs,
    is_slot_available.
  repeat match goal with
  | H : fromisoformat _ = Some _ |- _ => rewrite H; clear H
  | H : strptime_HM _ = Some _ |- _ => rewrite H; clear H
  end.
  simpl.
  match goal with
  | |- context [check_time_slot_availability (?table ++ [?row]) _ _ _ None] =>
    assert (row ∈ table ++ [row]) as Hrow
      by (apply elem_of_app; right; by left);
    pose proof (check_time_slot_availability_taken (table ++ [row]) row None
                  Hrow eq_refl) as Htaken;
    simpl in Htaken; rewrite Htaken by done
  end.
  done.
Qed.

Lemma create_retry_refused_witness :
  let first :=
    @patient.create_appointment canonical_runtime clinic patient_a POST
      (booking "2" "2025-06-10" "09:00" "cough") in
  @patient.create_appointment canonical_runtime first.1 patient_b POST
    (booking "2" "2025-06-10" "09:00" "cough")
  = (first.1,
     flash "This time slot is already booked. Please choose another time."
       "error" (Redirect "patient.create_appointment")).
Proof.
  intros first.
  apply (@create_retry_refused canonical_runtime clinic first.1 patient_a
           patient_b (booking "2" "2025-06-10" "09:00" "cough") first.2
           "Appointment booked successfully!").
  - apply surjective_pairing.
  - vm_compute. constructor.
  - reflexivity.
Defined.

(** X5.  A patient's cancellation of their own booked appointment sets its
    status to Cancelled, changes no other row, and leaves the slot free for
    the conflict checker (in a table with at most one booked appointment
    per slot). *)
Theorem cancel_frees_slot (db : Database) (u : SystemUser) (i : Z)
    (a : MedicalAppointment) :
  exclusive (appointments db) →
  role u = PATIENT →
  get_appointment (appointments db) i = Some a →
  patient_id a = user_id u →
  status a = BOOKED →
  let result := patient.cancel_client_appointment db u i in
  appointments result.1 = update_row (appointments db) (set_status a CANCELLED) ∧
  get_appointment (appointments result.1) i = Some (set_status a CANCELLED) ∧
  check_time_slot_availability (appointments result.1) (doctor_id a) (date a)
    (time a) None = true ∧
  users result.1 = users db ∧ treatments result.1 = treatments db ∧
  flashed result.2 = [("Appointment cancelled successfully!", "success")].
Proof.
  intros Hex Hpatient Hget Hown Hbooked result. subst result.
  unfold patient.cancel_client_appointment, patient.require_client_access,
    patient._verify_appointment_ownership.
  rewrite Hpatient, Hget, Hown, Hbooked. simpl.
  rewrite bool_decide_eq_true_2 by done. simpl.
  rewrite (can_transition_to_from_booked a CANCELLED Hbooked). simpl.
  pose proof (get_appointment_Some _ _ _ Hget) as [Hin Hid].
  repeat split.
  - rewrite get_appointment_update_row, Hget. simpl. by rewrite decide_True.
  - by apply slot_free_after_close.
Qed.

Lemma cancel_frees_slot_witness :
  check_time_slot_availability
    (appointments
       (patient.cancel_client_appointment (clinic_with BOOKED) patient_a 1).1)
    2 june_10 nine None = true.
Proof.
  refine (proj1 (proj2 (proj2
    (cancel_frees_slot (clinic_with BOOKED) patient_a 1 (appointment_of_a BOOKED)
       _ eq_refl eq_refl eq_refl eq_refl)))).
  intros p d t. apply (length_filter _ [appointment_of_a BOOKED]).
Defined.

(** X6.  The patient of an appointment and its provider cancel it to the
    same effect: both handlers leave the same database, whatever the
    status of the appointment. *)
Theorem cancel_by_either_party (db : Database) (p d : SystemUser) (i : Z)
    (a : MedicalAppointment) :
  role p = PATIENT → role d = DOCTOR →
  get_appointment (appointments db) i = Some a →
  patient_id a = user_id p → doctor_id a = user_id d →
  (patient.cancel_client_appointment db p i).1 =
  (doctor.cancel_physician_appointment db d i).1.
Proof.
  intros Hp Hd Hget Hpa Hdo.
  unfold patient.cancel_client_appointment, patient.require_client_access,
    patient._verify_appointment_ownership,
    doctor.cancel_physician_appointment, doctor.require_physician_access,
    doctor._verify_appointment_ownership.
  rewrite Hp, Hd, Hget, Hpa, Hdo. simpl.
  rewrite !bool_decide_eq_true_2 by done. simpl.
  destruct (decide (status a ≠ BOOKED)); [done|].
  by destruct (can_transition_to a CANCELLED) as [[] ?].
Qed.

Lemma cancel_by_either_party_witness :
  (patient.cancel_client_appointment (clinic_with BOOKED) patient_a 1).1 =
  (doctor.cancel_physician_appointment (clinic_with BOOKED) provider_p 1).1.
Proof.
  exact (cancel_by_either_party (clinic_with BOOKED) patient_a provider_p 1
           (appointment_of_a BOOKED) eq_refl eq_refl eq_refl eq_refl eq_refl).
Defined.

(** X7.  Completion happens once: after a provider has completed an
    appointment, a second Complete on it, with whatever data, is refused
    with "This appointment is already completed or cancelled." and leaves
    the database, and so the treatment recorded by the first, as it is. *)
Theorem complete_twice_refused (db : Database) (u : SystemUser) (i : Z)
    (a : MedicalAppointment) (first second : TreatmentData) :
  role u = DOCTOR →
  get_appointment (appointments db) i = Some a →
  doctor_id a = user_id u →
  status a = BOOKED →
  td_diagnosis first ≠ "" →
  let once := (doctor.mark_appointment_completed db u i POST first).1 in
  doctor.mark_appointment_completed once u i POST second =
    (once, flash "This appointment is already completed or cancelled." "error"
             (Redirect "doctor.view_appointment_details")).
Proof.
  intros Hdoctor Hget Hown Hbooked Hdiag once.
  assert (once = {| users := users db;
                    appointments :=
                      update_row (appointments db) (set_status a COMPLETED);
                    treatments :=
                      doctor._create_or_update_treatment_record (treatments db)
                        (id a) first |}) as ->.
  { subst once.
    unfold doctor.mark_appointment_completed, doctor.require_physician_access,
      doctor._verify_appointment_ownership, truthy.
    rewrite Hdoctor, Hget, Hown, Hbooked. simpl.
    rewrite bool_decide_eq_true_2 by done.
    rewrite (bool_decide_eq_true_2 _ Hdiag). simpl.
    by rewrite (can_transition_to_from_booked a COMPLETED Hbooked). }
  pose proof (get_appointment_Some _ _ _ Hget) as [_ Hid].
  unfold doctor.mark_appointment_completed, doctor.require_physician_access,
    doctor._verify_appointment_ownership. simpl.
  rewrite Hdoctor, get_appointment_update_row, Hget. simpl.
  rewrite decide_True by done. simpl.
  rewrite Hown. by rewrite bool_decide_eq_true_2.
Qed.

Lemma complete_twice_refused_witness :
  let once :=
    (doctor.mark_appointment_completed (clinic_with BOOKED) provider_p 1 POST
       flu).1 in
  (doctor.mark_appointment_completed once provider_p 1 POST flu).1 = once.
Proof.
  intros once.
  pose proof (complete_twice_refused (clinic_with BOOKED) provider_p 1
                (appointment_of_a BOOKED) flu flu eq_refl eq_refl eq_refl
                eq_refl ltac:(discriminate)) as Hrefused.
  cbv zeta in Hrefused. subst once. rewrite Hrefused. reflexivity.
Defined.

Lemma NoDup_fmap_elem_inj {A B} (f : A → B) (l : list A) (x y : A) :
  NoDup (f <$> l) → x ∈ l → y ∈ l → f x = f y → x = y.
Proof.
  induction l as [|z l IH]; intros Hnd Hx Hy Hf.
  { by apply elem_of_nil in Hx. }
  rewrite fmap_cons in Hnd. apply NoDup_cons in Hnd as [Hnotin Hnd].
  apply elem_of_cons in Hx as [->|Hx]; apply elem_of_cons in Hy as [->|Hy].
  - done.
  - exfalso. apply Hnotin. rewrite Hf. by apply list_elem_of_fmap_2.
  - exfalso. apply Hnotin. rewrite <- Hf. by apply list_elem_of_fmap_2.
  - by apply IH.
Qed.

Lemma NoDup_fmap_filter {A B} (f : A → B) (P : A → Prop)
    `{!∀ x, Decision (P x)} (l : list A) :
  NoDup (f <$> l) → NoDup (f <$> filter P l).
Proof.
  intros Hnd. eapply sublist_NoDup; [exact Hnd|].
  apply fmap_sublist, sublist_filter.
Qed.

(** The two branches of [_create_or_update_treatment_record]. *)
Lemma create_or_update_cases (table : list TreatmentRecord) (a_id : Z)
    (treatment_data : TreatmentData) :
  let table' :=
    doctor._create_or_update_treatment_record table a_id treatment_data in
  (∃ treatment,
     treatment ∈ table ∧ appointment_id treatment = a_id ∧
     table' =
       (λ t, if decide (treatment_id t = treatment_id treatment)
             then doctor.fill_treatment (treatment_id t) (appointment_id t)
                    treatment_data
             else t) <$> table) ∨
  ((a_id ∉ appointment_id <$> table) ∧
   table' = table ++ [doctor.fill_treatment (next_id (treatment_id <$> table))
                        a_id treatment_data]).
Proof.
  unfold doctor._create_or_update_treatment_record.
  destruct (head (filter (λ t, appointment_id t = a_id) table))
    as [treatment|] eqn:Hhead; simpl.
  - left. exists treatment.
    apply (head_filter_Some (λ t, appointment_id t = a_id)) in Hhead as [? ?].
    done.
  - right. split; [|done]. intros Hin.
    apply list_elem_of_fmap in Hin as (t & -> & Ht).
    by apply (proj1 (head_filter_None (λ t', appointment_id t' = appointment_id t)
                       table) Hhead t).
Qed.

Lemma create_or_update_constraints (table : list TreatmentRecord) (a_id : Z)
    (treatment_data : TreatmentData) :
  NoDup (treatment_id <$> table) → one_treatment_per_appointment table →
  let table' :=
    doctor._create_or_update_treatment_record table a_id treatment_data in
  NoDup (treatment_id <$> table') ∧ one_treatment_per_appointment table'.
Proof.
  intros Hpk Hone table'. unfold one_treatment_per_appointment in *.
  destruct (create_or_update_cases table a_id treatment_data)
    as [(treatment & Hin & Haid & Heq)|[Hnotin Heq]];
    fold table' in Heq; rewrite Heq.
  - rewrite <- !list_fmap_compose.
    rewrite (list_fmap_ext (treatment_id ∘ _) treatment_id table)
      by (intros ? t _; simpl; by case_decide).
    rewrite (list_fmap_ext (appointment_id ∘ _) appointment_id table)
      by (intros ? t _; simpl; by case_decide).
    done.
  - rewrite !fmap_app. simpl. split; apply NoDup_app.
    + split; [done|]. split; [|apply NoDup_singleton].
      intros x Hx Hx'. apply list_elem_of_singleton in Hx'. subst x.
      by apply next_id_fresh in Hx.
    + split; [done|]. split; [|apply NoDup_singleton].
      intros x Hx Hx'. apply list_elem_of_singleton in Hx'. by subst x.
Qed.

(** X8.  [_create_or_update_treatment_record] keeps [treatment_id] a key
    and [appointment_id] unique, never touches the treatment of another
    appointment, and adds a row exactly when the appointment had no
    treatment yet. *)
Theorem create_or_update_treatment_frame (table : list TreatmentRecord)
    (a_id : Z) (treatment_data : TreatmentData) :
  NoDup (treatment_id <$> table) →
  one_treatment_per_appointment table →
  let table' :=
    doctor._create_or_update_treatment_record table a_id treatment_data in
  NoDup (treatment_id <$> table') ∧
  one_treatment_per_appointment table' ∧
  (∀ t, appointment_id t ≠ a_id → t ∈ table' ↔ t ∈ table) ∧
  length table' =
    if decide (a_id ∈ appointment_id <$> table) then length table
    else S (length table).
Proof.
  intros Hpk Hone table'.
  destruct (create_or_update_constraints table a_id treatment_data Hpk Hone)
    as [Hpk' Hone'].
  split; [done|]. split; [done|].
  destruct (create_or_update_cases table a_id treatment_data)
    as [(treatment & Hin & Haid & Heq)|[Hnotin Heq]];
    fold table' in Heq; rewrite Heq.
  - split.
    + intros t Ht. rewrite list_elem_of_fmap. split.
      * intros (x & -> & Hx). case_decide as Hid; [|done].
        simpl in Ht.
        assert (x = treatment) as ->
          by by apply (NoDup_fmap_elem_inj treatment_id table).
        done.
      * intros Hint. exists t. split; [|done].
        rewrite decide_False; [done|]. intros Hid. apply Ht.
        assert (t = treatment) as ->
          by by apply (NoDup_fmap_elem_inj treatment_id table).
        done.
    + rewrite length_fmap, decide_True; [done|].
      rewrite <- Haid. by apply list_elem_of_fmap_2.
  - split.
    + intros t Ht. rewrite elem_of_app, list_elem_of_singleton. split.
      * intros [?| ->]; [done|]. by simpl in Ht.
      * by left.
    + rewrite length_app, decide_False by done. simpl. lia.
Qed.

Lemma create_or_update_treatment_frame_witness :
  length (doctor._create_or_update_treatment_record
            [doctor.fill_treatment 1 1 flu] 1 flu) = 1%nat ∧
  length (doctor._create_or_update_treatment_record
            [doctor.fill_treatment 1 1 flu] 2 flu) = 2%nat.
Proof.
  split.
  - exact (proj2 (proj2 (proj2
      (create_or_update_treatment_frame [doctor.fill_treatment 1 1 flu] 1 flu
         (NoDup_singleton _) (NoDup_singleton _))))).
  - exact (proj2 (proj2 (proj2
      (create_or_update_treatment_frame [doctor.fill_treatment 1 1 flu] 2 flu
         (NoDup_singleton _) (NoDup_singleton _))))).
Defined.

(** X9.  The administrative status update, for an administrator and an
    existing appointment.  A status string outside "Booked", "Completed",
    "Cancelled" is refused with "Invalid status selected." and nothing
    changes.  Each of the three strings names a status, and the handler
    then stores that status on the appointment and on nothing else; the
    flash is a warning carrying the checker's reason when the checker
    rejects the transition and a success otherwise.  (So the branch
    "Invalid status value." is never taken.) *)
Theorem modify_appointment_status_effect (db : Database) (u : SystemUser)
    (i : Z) (a : MedicalAppointment) (s : string) :
  role u = ADMIN →
  get_appointment (appointments db) i = Some a →
  let result := admin.modify_appointment_status db u i s in
  (s ∉ ["Booked"; "Completed"; "Cancelled"] →
     result.1 = db ∧ flashed result.2 = [("Invalid status selected.", "error")]) ∧
  (∀ target, s = value target →
     appointments result.1 = update_row (appointments db) (set_status a target) ∧
     get_appointment (appointments result.1) i = Some (set_status a target) ∧
     users result.1 = users db ∧ treatments result.1 = treatments db ∧
     flashed result.2 =
       [match validate_status_transition a target with
        | (true, _) =>
          ("Appointment status updated from " +:+ value (status a) +:+ " to "
             +:+ value target +:+ " successfully!", "success")
        | (false, reason) =>
          ("Status changed from " +:+ value (status a) +:+ " to "
             +:+ value target +:+ ". Note: " +:+ default "None" reason,
           "warning")
        end]).
Proof.
  intros Hadmin Hget result. subst result.
  unfold admin.modify_appointment_status, admin.require_administrator_access.
  rewrite Hadmin, Hget. simpl.
  pose proof (get_appointment_Some _ _ _ Hget) as [_ Hid].
  split.
  - intros Hinvalid.
    rewrite (bool_decide_eq_true_2 (s ∉ _)) by done.
    by rewrite orb_true_r.
  - intros target ->.
    assert (negb (truthy (value target))
            || bool_decide (value target ∉ ["Booked"; "Completed"; "Cancelled"])
            = false) as -> by by destruct target.
    assert (AppointmentStatus_getitem (upper (value target)) = Some target)
      as -> by by destruct target.
    unfold can_transition_to.
    destruct (validate_status_transition a target) as [[] reason]; simpl;
      (repeat split; [rewrite get_appointment_update_row, Hget; simpl;
                      by rewrite decide_True]).
Qed.

Lemma modify_appointment_status_effect_witness :
  (admin.modify_appointment_status (clinic_with BOOKED) administrator 1
     "Pending").1 = clinic_with BOOKED ∧
  appointments
    (admin.modify_appointment_status (clinic_with BOOKED) administrator 1
       "Cancelled").1 = [appointment_of_a CANCELLED].
Proof.
  destruct (modify_appointment_status_effect (clinic_with BOOKED) administrator
              1 (appointment_of_a BOOKED) "Pending" eq_refl eq_refl)
    as [Hinvalid _].
  destruct (modify_appointment_status_effect (clinic_with BOOKED) administrator
              1 (appointment_of_a BOOKED) "Cancelled" eq_refl eq_refl)
    as [_ Hvalid].
  split.
  - apply Hinvalid. vm_compute. intros Hin.
    repeat (apply elem_of_cons in Hin as [Hin|Hin]; [discriminate|]).
    by apply elem_of_nil in Hin.
  - destruct (Hvalid CANCELLED eq_refl) as [Hrows _]. rewrite Hrows.
    reflexivity.
Defined.

(** X10.  The deletion guard protects a Completed appointment only while
    it is Completed: an administrator who first sets it to Cancelled, which
    the checker allows, can then delete it, and the delete removes its
    treatment record as well. *)
Theorem completed_record_deletable_after_status_update (db : Database)
    (u : SystemUser) (i : Z) (a : MedicalAppointment) :
  role u = ADMIN →
  get_appointment (appointments db) i = Some a →
  status a = COMPLETED →
  let refused := admin.remove_appointment db u i in
  let updated := admin.modify_appointment_status db u i "Cancelled" in
  let removed := admin.remove_appointment updated.1 u i in
  refused.1 = db ∧
  flashed updated.2 =
    [("Appointment status updated from Completed to Cancelled successfully!",
      "success")] ∧
  get_appointment (appointments removed.1) i = None ∧
  (∀ t, t ∈ treatments removed.1 → appointment_id t ≠ i) ∧
  flashed removed.2 = [("Appointment deleted successfully!", "success")].
Proof.
  intros Hadmin Hget Hcompleted refused updated removed.
  pose proof (get_appointment_Some _ _ _ Hget) as [_ Hid].
  assert (refused.1 = db) as Hrefused.
  { subst refused.
    unfold admin.remove_appointment, admin.require_administrator_access.
    rewrite Hadmin, Hget. simpl. by rewrite decide_True. }
  assert (updated =
            (with_appointments db
               (update_row (appointments db) (set_status a CANCELLED)),
             {| flashed :=
                  [("Appointment status updated from Completed to Cancelled successfully!",
                    "success")];
                outcome := redirect_url_for "admin.view_appointment" |}))
    as Hupdated.
  { subst updated.
    unfold admin.modify_appointment_status, admin.require_administrator_access.
    rewrite Hadmin, Hget. simpl.
    unfold can_transition_to, validate_status_transition.
    by rewrite Hcompleted. }
  split; [done|]. split; [by rewrite Hupdated|].
  subst removed. rewrite Hupdated. simpl.
  unfold admin.remove_appointment, admin.require_administrator_access.
  rewrite Hadmin. simpl.
  rewrite get_appointment_update_row, Hget. simpl.
  destruct (decide (id a = id a)); [|done]. simpl.
  split; [|split; [|done]].
  - rewrite Hid. apply get_appointment_removed.
  - intros t Ht. apply list_elem_of_filter in Ht as [Hne _]. by rewrite <- Hid.
Qed.

Lemma completed_record_deletable_after_status_update_witness :
  get_appointment
    (appointments
       (admin.remove_appointment
          (admin.modify_appointment_status (clinic_with COMPLETED)
             administrator 1 "Cancelled").1 administrator 1).1) 1 = None.
Proof.
  exact (proj1 (proj2 (proj2
    (completed_record_deletable_after_status_update (clinic_with COMPLETED)
       administrator 1 (appointment_of_a COMPLETED) eq_refl eq_refl eq_refl)))).
Defined.

(** X11.  The administrative status update and the refused delete redirect
    to the endpoint "admin.view_appointment", which no route registers
    (the view is "admin.view_appointment_details").  For an administrator
    and an existing appointment, the status update therefore always ends
    in a [BuildError], also after it has committed the new status, and so
    does the refused delete of a Completed appointment; an accepted delete
    redirects to the list of appointments. *)
Theorem admin_redirect_to_unregistered_endpoint (db : Database)
    (u : SystemUser) (i : Z) (a : MedicalAppointment) (s : string) :
  role u = ADMIN →
  get_appointment (appointments db) i = Some a →
  outcome (admin.modify_appointment_status db u i s).2 = Raise BuildError ∧
  outcome (admin.remove_appointment db u i).2 =
    if decide (status a = COMPLETED) then Raise BuildError
    else Redirect "admin.list_all_appointments".
Proof.
  intros Hadmin Hget. split.
  - unfold admin.modify_appointment_status, admin.require_administrator_access.
    rewrite Hadmin, Hget. simpl.
    repeat case_match; simplify_eq; done.
  - unfold admin.remove_appointment, admin.require_administrator_access.
    rewrite Hadmin, Hget. simpl. by case_decide.
Qed.

Lemma admin_redirect_to_unregistered_endpoint_witness :
  appointments
    (admin.modify_appointment_status (clinic_with BOOKED) administrator 1
       "Completed").1 = [appointment_of_a COMPLETED] ∧
  outcome
    (admin.modify_appointment_status (clinic_with BOOKED) administrator 1
       "Completed").2 = Raise BuildError.
Proof.
  split; [reflexivity|].
  exact (proj1 (admin_redirect_to_unregistered_endpoint (clinic_with BOOKED)
                  administrator 1 (appointment_of_a BOOKED) "Completed"
                  eq_refl eq_refl)).
Defined.

(** X12.  Who can change an appointment: a user who is not its patient
    changes nothing through the patient's reschedule and cancel, a user
    who is not its provider changes nothing through complete and the
    provider's cancel, and a user who is not an administrator changes
    nothing through the status update and the delete. *)
Theorem only_parties_change_appointment `{!PyRuntime} (db : Database)
    (u : SystemUser) (i : Z) (a : MedicalAppointment) :
  get_appointment (appointments db) i = Some a →
  (user_id u ≠ patient_id a →
     ∀ m req,
       (patient.reschedule_client_appointment db u i m req).1 = db ∧
       (patient.cancel_client_appointment db u i).1 = db) ∧
  (user_id u ≠ doctor_id a →
     ∀ m treatment_data,
       (doctor.mark_appointment_completed db u i m treatment_data).1 = db ∧
       (doctor.cancel_physician_appointment db u i).1 = db) ∧
  (role u ≠ ADMIN →
     ∀ s,
       (admin.modify_appointment_status db u i s).1 = db ∧
       (admin.remove_appointment db u i).1 = db).
Proof.
  intros Hget. split; [|split].
  - intros Hstranger m req.
    unfold patient.reschedule_client_appointment,
      patient.cancel_client_appointment, patient.require_client_access,
      patient._verify_appointment_ownership.
    rewrite Hget. rewrite bool_decide_eq_false_2 by done. simpl.
    split; by case_decide.
  - intros Hstranger m treatment_data.
    unfold doctor.mark_appointment_completed,
      doctor.cancel_physician_appointment, doctor.require_physician_access,
      doctor._verify_appointment_ownership.
    rewrite Hget. rewrite bool_decide_eq_false_2 by done. simpl.
    split; by case_decide.
  - intros Hrole s.
    unfold admin.modify_appointment_status, admin.remove_appointment,
      admin.require_administrator_access.
    by rewrite bool_decide_eq_false_2.
Qed.

Lemma only_parties_change_appointment_witness :
  (patient.cancel_client_appointment (clinic_with BOOKED) patient_b 1).1
    = clinic_with BOOKED ∧
  (admin.remove_appointment (clinic_with BOOKED) provider_p 1).1
    = clinic_with BOOKED.
Proof.
  destruct (@only_parties_change_appointment canonical_runtime
              (clinic_with BOOKED) patient_b 1 (appointment_of_a BOOKED)
              eq_refl) as [Hpatient _].
  destruct (@only_parties_change_appointment canonical_runtime
              (clinic_with BOOKED) provider_p 1 (appointment_of_a BOOKED)
              eq_refl) as (_ & _ & Hadmin).
  split.
  - exact (proj2 (Hpatient ltac:(discriminate) GET
                    (booking "" "" "" ""))).
  - exact (proj2 (Hadmin ltac:(discriminate) "Booked")).
Defined.

(** *** The table constraint under every request *)

Lemma same_slot_sym (a b : MedicalAppointment) : same_slot a b → same_slot b a.
Proof. unfold same_slot. naive_solver. Qed.

Lemma slot_unique_insert table patient doctor d t s n table' :
  insert_appointment table patient doctor d t s n = Some table' →
  slot_unique table → slot_unique table'.
Proof.
  unfold insert_appointment, uq_doctor_date_time_booked_slot.
  case_bool_decide as Huq; [|done]. intros [= <-] Hunique a b Ha Hb Hsame.
  rewrite Forall_forall in Huq.
  apply elem_of_app in Ha as [Ha|Ha], Hb as [Hb|Hb];
    rewrite ?list_elem_of_singleton in *; subst.
  - by apply Hunique.
  - destruct (Huq a Ha) as [Hid|Hdiff]; [done|by destruct Hdiff].
  - destruct (Huq b Hb) as [Hid|Hdiff]; [done|].
    destruct Hdiff. by apply same_slot_sym.
  - done.
Qed.

Lemma slot_unique_update_date_time table a d t table' :
  update_date_time table a d t = Some table' →
  slot_unique table → slot_unique table'.
Proof.
  unfold update_date_time, uq_doctor_date_time_booked_slot.
  case_decide; [by intros [= <-]|].
  case_bool_decide as Huq; [|done]. intros [= <-] Hunique x' y' Hx Hy Hsame.
  rewrite Forall_forall in Huq. unfold update_row in Hx, Hy.
  apply list_elem_of_fmap in Hx as (x & -> & Hx).
  apply list_elem_of_fmap in Hy as (y & -> & Hy).
  simpl in *. repeat case_decide; simpl in *.
  - done.
  - destruct (Huq y Hy) as [Hid|Hdiff]; [done|].
    destruct Hdiff. by apply same_slot_sym.
  - destruct (Huq x Hx) as [Hid|Hdiff]; [done|by destruct Hdiff].
  - by apply Hunique.
Qed.

Lemma slot_unique_update_status table a s :
  primary_key table → a ∈ table → slot_unique table →
  slot_unique (update_row table (set_status a s)).
Proof.
  intros Hpk Ha Hunique x' y' Hx Hy Hsame. unfold update_row in Hx, Hy.
  apply list_elem_of_fmap in Hx as (x & -> & Hx).
  apply list_elem_of_fmap in Hy as (y & -> & Hy).
  assert (∀ z, z ∈ table →
            same_slot (if decide (id z = id (set_status a s))
                       then set_status a s else z) z ∧
            id (if decide (id z = id (set_status a s))
                then set_status a s else z) = id z) as Hkeep.
  { intros z Hz. unfold same_slot.
    destruct (decide (id z = id (set_status a s))) as [Hid|Hid];
      [|by repeat split]. simpl in Hid.
    assert (z = a) as -> by by apply (primary_key_inj table).
    by repeat split. }
  destruct (Hkeep x Hx) as [(Hx1 & Hx2 & Hx3) ->].
  destruct (Hkeep y Hy) as [(Hy1 & Hy2 & Hy3) ->].
  apply Hunique; [done|done|]. destruct Hsame as (? & ? & ?).
  unfold same_slot. split; [congruence|]. split; congruence.
Qed.

Lemma slot_unique_filter (P : MedicalAppointment → Prop)
    `{!∀ x, Decision (P x)} table :
  slot_unique table → slot_unique (filter P table).
Proof.
  intros Hunique a b Ha Hb. apply list_elem_of_filter in Ha as [_ Ha].
  apply list_elem_of_filter in Hb as [_ Hb]. by apply Hunique.
Qed.

Lemma slot_unique_exclusive table :
  primary_key table → slot_unique table → exclusive table.
Proof.
  intros Hpk Hunique p d t. unfold booked_at.
  set (slot := λ a : MedicalAppointment,
         doctor_id a = p ∧ date a = d ∧ time a = t ∧ status a = BOOKED).
  assert (NoDup (filter slot table)) as Hnd.
  { apply NoDup_filter. by eapply NoDup_fmap_1. }
  destruct (filter slot table) as [|x [|y rest]] eqn:Hrows; simpl; [lia|lia|].
  exfalso. apply NoDup_cons in Hnd as [Hnotin _]. apply Hnotin.
  assert (x ∈ filter slot table) as Hx by (rewrite Hrows; by left).
  assert (y ∈ filter slot table) as Hy by (rewrite Hrows; right; by left).
  apply list_elem_of_filter in Hx as [(? & ? & ? & ?) Hx].
  apply list_elem_of_filter in Hy as [(? & ? & ? & ?) Hy].
  assert (x = y) as ->; [|by left].
  apply (primary_key_inj table); [done..|].
  apply Hunique; [done..|]. unfold same_slot. split; [congruence|].
  split; congruence.
Qed.

Section schema.
Context `{!PyRuntime}.

Lemma schema_valid_serve (db : Database) (r : Request) :
  schema_valid db → schema_valid (serve db r).1.
Proof.
  intros (Hpk & Hunique & Htpk & Hone).
  destruct r as [op|u i s|u i|u m today form|u d m today form]; simpl.
  - destruct op as [u m req|u i m req|u i|u i|u i m data]; simpl.
    + unfold patient.create_appointment, patient.require_client_access.
      repeat case_match; simplify_eq; simpl; try done;
        (split; [|split; [|done]];
         [match goal with
          | Hi : insert_appointment _ _ _ _ _ _ _ = Some _ |- _ =>
            apply insert_appointment_Some in Hi as ->
          end; by apply insert_primary_key
         |by eapply slot_unique_insert]).
    + destruct (patient.reschedule_client_appointment db u i m req)
        as [db' r] eqn:Hstep.
      apply reschedule_client_appointment_inv in Hstep
        as [[-> _]|(a & doc & d & t & table & _ & _ & _ & _ & _ & _ & _ & _ & _
                    & _ & Hupd & -> & _)]; [done|].
      simpl. split; [|split; [by eapply slot_unique_update_date_time|done]].
      apply update_date_time_Some in Hupd as [->|(_ & _ & ->)]; [|done].
      by apply update_row_primary_key.
    + destruct (patient.cancel_client_appointment db u i) as [db' r] eqn:Hstep.
      apply cancel_client_appointment_inv in Hstep
        as [[-> _]|(a & _ & Hget & _ & _ & -> & _)]; [done|].
      apply get_appointment_Some in Hget as [Hin _]. simpl.
      split; [by apply update_row_primary_key|].
      split; [by apply slot_unique_update_status|done].
    + destruct (doctor.cancel_physician_appointment db u i) as [db' r] eqn:Hstep.
      apply cancel_physician_appointment_inv in Hstep
        as [[-> _]|(a & _ & Hget & _ & _ & -> & _)]; [done|].
      apply get_appointment_Some in Hget as [Hin _]. simpl.
      split; [by apply update_row_primary_key|].
      split; [by apply slot_unique_update_status|done].
    + destruct (doctor.mark_appointment_completed db u i m data)
        as [db' r] eqn:Hstep.
      apply mark_appointment_completed_inv in Hstep
        as [[-> _]|(a & _ & _ & Hget & _ & _ & _ & -> & _)]; [done|].
      apply get_appointment_Some in Hget as [Hin _]. simpl.
      split; [by apply update_row_primary_key|].
      split; [by apply slot_unique_update_status|].
      by apply create_or_update_constraints.
  - unfold admin.modify_appointment_status, admin.require_administrator_access.
    repeat case_match; simplify_eq; simpl; try done.
    all: match goal with
         | Hget : get_appointment _ _ = Some _ |- _ =>
           apply get_appointment_Some in Hget as [Hin _]
         end.
    all: split; [by apply update_row_primary_key|].
    all: split; [by apply slot_unique_update_status|done].
  - unfold admin.remove_appointment, admin.require_administrator_access.
    repeat case_match; simplify_eq; simpl; try done.
    split; [by apply NoDup_fmap_filter|].
    split; [by apply slot_unique_filter|].
    split; by apply NoDup_fmap_filter.
  - unfold doctor_availability.availability_route,
      doctor_availability.manage_availability, doctor.require_physician_access.
    by repeat case_match.
  - unfold admin_availability.manage_physician_availability,
      admin.require_administrator_access.
    by repeat case_match.
Qed.

Lemma schema_valid_serve_all (rs : list Request) (db : Database) :
  schema_valid db → schema_valid (serve_all db rs).
Proof.
  revert db. induction rs as [|r rs IH]; intros db Hdb; [done|].
  simpl. apply IH. by apply schema_valid_serve.
Qed.

End schema.

(** X13.  The constraints of the schema survive every request: from a
    database in which [id] and [treatment_id] are keys, [appointment_id] is
    unique among treatments and no two appointments share (doctor_id, date,
    time), every sequence of booking, administrative and availability
    requests leads to such a database; in particular no sequence, the
    administrative status update included, leaves two booked appointments
    on one slot. *)
Theorem schema_kept_by_every_request `{!PyRuntime} (db : Database)
    (rs : list Request) :
  schema_valid db →
  schema_valid (serve_all db rs) ∧ exclusive (appointments (serve_all db rs)).
Proof.
  intros Hdb. pose proof (schema_valid_serve_all rs db Hdb) as Hvalid.
  split; [done|]. destruct Hvalid as (Hpk & Hunique & _).
  by apply slot_unique_exclusive.
Qed.

Lemma schema_kept_by_every_request_witness :
  schema_valid clinic ∧
  exclusive (appointments (@serve_all canonical_runtime clinic office_day)).
Proof.
  assert (schema_valid clinic) as Hclinic.
  { split; [constructor|]. split; [|split; constructor].
    intros a b Ha. by apply elem_of_nil in Ha. }
  split; [exact Hclinic|].
  exact (proj2 (@schema_kept_by_every_request canonical_runtime clinic
                  office_day Hclinic)).
Defined.

(** *** Availability forms *)

Lemma foldl_insert_lookup {V} (f : nat → string) (h : string → V)
    (l : list nat) (m : gmap string V) (key : string) :
  foldl (λ m k, <[f k := h (f k)]> m) m l !! key =
    if decide (key ∈ f <$> l) then Some (h key) else m !! key.
Proof.
  revert m. induction l as [|k l IH]; intros m.
  { destruct (decide (key ∈ f <$> [])) as [Hin|_]; [|done].
    by apply elem_of_nil in Hin. }
  cbn [foldl]. rewrite IH, fmap_cons.
  destruct (decide (key ∈ f <$> l)) as [Hin|Hnotin];
    destruct (decide (key ∈ f k :: (f <$> l))) as [Hin'|Hnotin']; try done.
  - exfalso. apply Hnotin'. by right.
  - apply elem_of_cons in Hin' as [->|?]; [|done]. by rewrite lookup_insert_eq.
  - rewrite lookup_insert_ne; [done|]. intros <-. apply Hnotin'. by left.
Qed.

#[local] Instance string_le_total : Total string_le.
Proof. intros s1 s2. apply String.leb_total. Qed.

Lemma sorted_spec (l : list string) : Sorted string_le (sorted l) ∧ sorted l ≡ₚ l.
Proof.
  split; [apply (Sorted_merge_sort string_le)|apply merge_sort_Permutation].
Qed.

Lemma get_user_set_availability (table : list SystemUser) (uid i : Z)
    (data : gmap string (list string)) :
  get_user (set_availability table uid data) i =
    (λ u, if decide (user_id u = uid) then
            {| user_id := user_id u; role := role u;
               physician_profile := Some {| availability := Some data |} |}
          else u) <$> get_user table i.
Proof.
  unfold get_user, set_availability.
  rewrite (filter_fmap_preserved (λ u, user_id u = i)).
  - by destruct (filter (λ u, user_id u = i) table).
  - intros u. by case_decide.
Qed.

Lemma get_user_Some (table : list SystemUser) (i : Z) (u : SystemUser) :
  get_user table i = Some u → u ∈ table ∧ user_id u = i.
Proof. exact (head_filter_Some (λ u, user_id u = i) table u). Qed.

(** The availability check on a user whose availability is [avail]. *)
Lemma validate_with_availability (doctor : SystemUser)
    (avail : gmap string (list string)) (ds ts : string) :
  physician_profile doctor = Some {| availability := Some avail |} →
  patient._validate_doctor_availability doctor ds ts = (true, None) ↔
  ∃ slots, avail !! ds = Some slots ∧ ts ∈ slots.
Proof.
  intros Hprofile. unfold patient._validate_doctor_availability.
  rewrite Hprofile. simpl.
  destruct (decide (avail = ∅)) as [->|_].
  { split; [done|]. intros (slots & Hlook & _). by rewrite lookup_empty in Hlook. }
  destruct (avail !! ds) as [slots|]; [|split; [done|by intros (? & ? & _)]].
  destruct (decide (ts ∈ slots)).
  - split; [|done]. intros _. by exists slots.
  - split; [done|]. by intros (? & [= <-] & ?).
Qed.

Lemma doctor_form_lookup (today : pydate) (form : MultiDict)
    (ds : string) :
  doctor_availability._extract_availability_from_form today form !! ds =
    if decide (ds ∈ horizon today) then
      Some ((if decide ("08:00-12:00" ∈ form ("slots_" +:+ ds))
             then ["08:00"; "09:00"; "10:00"; "11:00"; "12:00"] else [])
            ++ (if decide ("16:00-21:00" ∈ form ("slots_" +:+ ds))
                then ["16:00"; "17:00"; "18:00"; "19:00"; "20:00"; "21:00"]
                else []))
    else None.
Proof.
  unfold doctor_availability._extract_availability_from_form, horizon.
  etrans; [exact (foldl_insert_lookup
             (λ k, strftime_Ymd (add_days today k))
             (λ ds,
                let time_slots :=
                  (if decide ("08:00-12:00" ∈ form ("slots_" +:+ ds))
                   then doctor_availability.morning_slots else [])
                  ++ (if decide ("16:00-21:00" ∈ form ("slots_" +:+ ds))
                      then doctor_availability.evening_slots else []) in
                if decide (time_slots ≠ []) then sorted time_slots else [])
             range7 ∅ ds)|].
  rewrite lookup_empty. case_decide; [|done]. f_equal.
  by repeat case_decide.
Qed.

(** X14.  The provider's availability form.  The dictionary that
    [_extract_availability_from_form] builds has the seven dates of the
    horizon as its keys and nothing else.  Under each date it holds the
    morning block 08:00-12:00, the evening block 16:00-21:00, both or
    neither, as ticked for that date, in ascending order; any other value
    submitted for the date is ignored. *)
Theorem doctor_form_stores_blocks (today : pydate) (form : MultiDict)
    (ds : string) :
  doctor_availability._extract_availability_from_form today form !! ds =
    if decide (ds ∈ horizon today) then
      Some ((if decide ("08:00-12:00" ∈ form ("slots_" +:+ ds))
             then ["08:00"; "09:00"; "10:00"; "11:00"; "12:00"] else [])
            ++ (if decide ("16:00-21:00" ∈ form ("slots_" +:+ ds))
                then ["16:00"; "17:00"; "18:00"; "19:00"; "20:00"; "21:00"]
                else []))
    else None.
Proof. apply doctor_form_lookup. Qed.

Lemma admin_form_lookup (today : pydate) (form : MultiDict) (ds : string) :
  admin_availability._extract_availability_from_form today form !! ds
  = if decide (ds ∈ horizon today) then
      Some (if decide (form ("slots_" +:+ ds) ≠ [])
            then sorted (form ("slots_" +:+ ds)) else [])
    else None.
Proof.
  etrans; [exact (foldl_insert_lookup
                    (λ k, strftime_Ymd (add_days today k))
                    (λ ds,
                       let time_slots := form ("slots_" +:+ ds) in
                       if decide (time_slots ≠ []) then sorted time_slots
                       else [])
                    range7 ∅ ds)|].
  by rewrite lookup_empty.
Qed.

(** X15.  The administrator's availability form.  The dictionary built by
    [_extract_availability_from_form] has the seven dates of the horizon
    as its keys and nothing else, and the list under each date is the
    list submitted for it, reordered into ascending order: every submitted
    value is kept, duplicates included. *)
Theorem admin_form_stores_sorted (today : pydate) (form : MultiDict)
    (ds : string) :
  match admin_availability._extract_availability_from_form today form !! ds with
  | Some slots =>
    ds ∈ horizon today ∧ Sorted string_le slots ∧
    slots ≡ₚ form ("slots_" +:+ ds)
  | None => ds ∉ horizon today
  end.
Proof.
  rewrite admin_form_lookup.
  case_decide as Hin; [|done].
  split; [done|]. simpl. case_decide as Hne.
  - apply sorted_spec.
  - rewrite Hne. split; [constructor|done].
Qed.

(** X16.  The default schedule given to a new provider offers 09:00,
    10:00, 14:00 and 15:00 on each of the seven dates of the horizon and
    nothing on any other date. *)
Theorem default_schedule_spec (today : pydate) (ds : string) :
  admin_availability._generate_default_availability_schedule today !! ds =
    if decide (ds ∈ horizon today) then Some ["09:00"; "10:00"; "14:00"; "15:00"]
    else None.
Proof.
  unfold admin_availability._generate_default_availability_schedule, horizon.
  etrans; [exact (foldl_insert_lookup (λ k, strftime_Ymd (add_days today k))
                    (λ _, ["09:00"; "10:00"; "14:00"; "15:00"]) range7 ∅ ds)|].
  by rewrite lookup_empty.
Qed.

Lemma elem_of_sorted_or_empty (l : list string) (x : string) :
  x ∈ (if decide (l ≠ []) then sorted l else []) ↔ x ∈ l.
Proof.
  case_decide as Hne.
  - by rewrite (proj2 (sorted_spec l)).
  - by rewrite Hne.
Qed.

(** X17.  The administrator's availability page, on a POST for an existing
    user.  A user who is not a provider, or a provider without a profile,
    is refused with "Invalid doctor." and nothing changes.  Otherwise the
    provider's availability is replaced as a whole: afterwards a booking
    passes the availability check for that provider exactly when its date
    is one of the seven dates of the horizon and its time was submitted
    for that date, so dates declared earlier outside the horizon are gone.
    No other user and no appointment or treatment is touched. *)
Theorem admin_replaces_availability (db : Database) (u : SystemUser)
    (did : Z) (physician : SystemUser) (today : pydate) (form : MultiDict) :
  role u = ADMIN →
  get_user (users db) did = Some physician →
  let result :=
    admin_availability.manage_physician_availability db u did POST today form in
  (role physician ≠ DOCTOR ∨ physician_profile physician = None →
     result = (db, flash "Invalid doctor." "error"
                     (Redirect "admin.list_all_physicians"))) ∧
  (role physician = DOCTOR → physician_profile physician ≠ None →
     appointments result.1 = appointments db ∧
     treatments result.1 = treatments db ∧
     (∀ uid, uid ≠ did → get_user (users result.1) uid = get_user (users db) uid) ∧
     ∃ physician',
       get_user (users result.1) did = Some physician' ∧
       user_id physician' = did ∧ role physician' = DOCTOR ∧
       ∀ ds ts,
         patient._validate_doctor_availability physician' ds ts = (true, None)
         ↔ ds ∈ horizon today ∧ ts ∈ form ("slots_" +:+ ds)).
Proof.
  intros Hadmin Hget result. subst result.
  unfold admin_availability.manage_physician_availability,
    admin.require_administrator_access.
  rewrite Hadmin, Hget. simpl.
  pose proof (get_user_Some _ _ _ Hget) as [_ Hid].
  split.
  - intros [Hrole|Hprofile].
    + by rewrite (bool_decide_eq_true_2 _ Hrole).
    + rewrite (bool_decide_eq_true_2 (physician_profile physician = None))
        by done.
      by rewrite orb_true_r.
  - intros Hrole Hprofile.
    rewrite bool_decide_eq_false_2 by (rewrite Hrole; auto).
    rewrite bool_decide_eq_false_2 by done. simpl.
    split; [done|]. split; [done|]. split.
    + intros uid Hne. rewrite get_user_set_availability.
      destruct (get_user (users db) uid) as [x|] eqn:Hx; [|done]. simpl.
      apply get_user_Some in Hx as [_ Hxid].
      rewrite decide_False; [done|]. congruence.
    + rewrite get_user_set_availability, Hget. simpl.
      rewrite decide_True by done.
      eexists. split; [reflexivity|]. simpl. split; [done|]. split; [done|].
      intros ds ts.
      rewrite (validate_with_availability _
                 (admin_availability._extract_availability_from_form today form))
        by done.
      setoid_rewrite admin_form_lookup. split.
      * intros (slots & Hlook & Hts). case_decide as Hin; [|done].
        injection Hlook as <-. split; [done|].
        by apply elem_of_sorted_or_empty.
      * intros [Hin Hts]. eexists. rewrite decide_True by done.
        split; [reflexivity|]. by apply elem_of_sorted_or_empty.
Qed.

Lemma admin_replaces_availability_witness :
  ∃ physician',
    get_user
      (users (admin_availability.manage_physician_availability clinic
                administrator 2 POST june_10 admin_form).1) 2
      = Some physician' ∧
    patient._validate_doctor_availability physician' "2025-06-10" "10:00"
      = (true, None).
Proof.
  destruct (admin_replaces_availability clinic administrator 2 provider_p
              june_10 admin_form eq_refl eq_refl) as [_ Hreplaced].
  destruct (Hreplaced eq_refl ltac:(discriminate))
    as (_ & _ & _ & physician' & Hget & _ & _ & Hvalid).
  exists physician'. split; [exact Hget|].
  apply Hvalid. split; vm_compute.
  - constructor.
  - constructor.
Defined.

(** X18.  The provider's own availability page.  The view, called with a
    POST by a provider who has a profile, replaces that provider's
    availability by the ticked blocks: afterwards a booking passes the
    availability check exactly for the dates of the horizon and the hours
    of the blocks ticked for them.  But the route is registered without
    [methods], so it serves GET only: through the route no request, POST
    included, changes the database. *)
Theorem doctor_availability_page (db : Database) (u : SystemUser)
    (today : pydate) (form : MultiDict) :
  role u = DOCTOR →
  physician_profile u ≠ None →
  get_user (users db) (user_id u) = Some u →
  let view := doctor_availability.manage_availability db u POST today form in
  (∀ m, (doctor_availability.availability_route db u m today form).1 = db) ∧
  appointments view.1 = appointments db ∧
  treatments view.1 = treatments db ∧
  ∃ u',
    get_user (users view.1) (user_id u) = Some u' ∧
    ∀ ds ts,
      patient._validate_doctor_availability u' ds ts = (true, None)
      ↔ ds ∈ horizon today ∧
        (("08:00-12:00" ∈ form ("slots_" +:+ ds) ∧
          ts ∈ ["08:00"; "09:00"; "10:00"; "11:00"; "12:00"]) ∨
         ("16:00-21:00" ∈ form ("slots_" +:+ ds) ∧
          ts ∈ ["16:00"; "17:00"; "18:00"; "19:00"; "20:00"; "21:00"])).
Proof.
  intros Hdoctor Hprofile Hget view. subst view.
  unfold doctor_availability.availability_route,
    doctor_availability.manage_availability, doctor.require_physician_access.
  rewrite Hdoctor. simpl.
  destruct (physician_profile u) as [profile|] eqn:Hp; [|done].
  split; [by intros []|]. simpl. split; [done|]. split; [done|].
  rewrite get_user_set_availability, Hget. simpl.
  rewrite decide_True by done.
  eexists. split; [reflexivity|]. intros ds ts.
  rewrite (validate_with_availability _
             (doctor_availability._extract_availability_from_form today form))
    by done.
  setoid_rewrite doctor_form_lookup. split.
  - intros (slots & Hlook & Hts). case_decide as Hin; [|done].
    injection Hlook as <-. split; [done|].
    apply elem_of_app in Hts as [Hts|Hts]; [left|right];
      by case_decide; [|apply elem_of_nil in Hts].
  - intros [Hin [[Htick Hts]|[Htick Hts]]]; eexists;
      rewrite decide_True by done; (split; [reflexivity|]);
      apply elem_of_app; [left|right]; by rewrite decide_True.
Qed.

Lemma doctor_availability_page_witness :
  (doctor_availability.availability_route clinic provider_p POST june_10
     morning_form).1 = clinic ∧
  ∃ u',
    get_user
      (users (doctor_availability.manage_availability clinic provider_p POST
                june_10 morning_form).1) 2 = Some u' ∧
    patient._validate_doctor_availability u' "2025-06-10" "11:00" = (true, None).
Proof.
  destruct (doctor_availability_page clinic provider_p june_10 morning_form
              eq_refl ltac:(discriminate) eq_refl)
    as (Hroute & _ & _ & u' & Hget & Hvalid).
  split; [exact (Hroute POST)|].
  exists u'. split; [exact Hget|].
  apply Hvalid. split; [vm_compute; constructor|].
  left. split; vm_compute.
  - constructor.
  - do 3 constructor 2. constructor.
Defined.

(** *** Availability readers *)

Lemma head_filter_seq (P : nat → Prop) `{!∀ k, Decision (P k)} (s n : nat) :
  match head (filter P (seq s n)) with
  | Some k => (s ≤ k < s + n)%nat ∧ P k ∧ ∀ j, (s ≤ j < k)%nat → ¬ P j
  | None => ∀ k, (s ≤ k < s + n)%nat → ¬ P k
  end.
Proof.
  revert s. induction n as [|n IH]; intros s; simpl.
  { intros k Hk. lia. }
  rewrite filter_cons. destruct (decide (P s)) as [Hs|Hs]; simpl.
  - split; [lia|]. split; [done|]. intros j Hj. lia.
  - specialize (IH (S s)).
    destruct (head (filter P (seq (S s) n))) as [k|].
    + destruct IH as (Hk & HP & Hmin). split; [lia|]. split; [done|].
      intros j Hj. destruct (decide (j = s)) as [->|]; [done|].
      apply Hmin. lia.
    + intros k Hk. destruct (decide (k = s)) as [->|]; [done|].
      apply IH. lia.
Qed.

Lemma offers_spec (doctor : SystemUser) (ds : string) :
  offers doctor ds ↔
  ∃ profile avail slots,
    physician_profile doctor = Some profile ∧
    availability profile = Some avail ∧
    avail !! ds = Some slots ∧ slots ≠ [].
Proof.
  unfold offers, declared_slots.
  destruct (physician_profile doctor) as [profile|]; [|naive_solver].
  destruct (availability profile) as [avail|] eqn:Havail; [|naive_solver].
  destruct (decide (avail = ∅)) as [->|_].
  { split; [done|]. intros (? & ? & ? & ? & ? & Hlook & _).
    simplify_eq. all: by rewrite lookup_empty in Hlook. }
  destruct (avail !! ds) as [slots|] eqn:Hlook; naive_solver.
Qed.

(** X19.  [_find_next_available_date] returns the first of the seven dates
    from today on which the provider's availability lists at least one
    slot, and [None] exactly when none of the seven does; dates before
    today or past the horizon, and dates with an empty list, never count. *)
Theorem find_next_available_date_spec (today : pydate) (doctor : SystemUser) :
  let listed (k : nat) :=
    ∃ profile avail slots,
      physician_profile doctor = Some profile ∧
      availability profile = Some avail ∧
      avail !! strftime_Ymd (add_days today k) = Some slots ∧ slots ≠ [] in
  match patient_availability._find_next_available_date today doctor with
  | Some d =>
    ∃ k, (k < 7)%nat ∧ d = add_days today k ∧ listed k ∧
         ∀ j, (j < k)%nat → ¬ listed j
  | None => ∀ k, (k < 7)%nat → ¬ listed k
  end.
Proof.
  intros listed. unfold patient_availability._find_next_available_date, range7.
  pose proof (head_filter_seq
                (λ k, offers doctor (strftime_Ymd (add_days today k))) 0 7)
    as Hhead.
  destruct (head (filter _ (seq 0 7))) as [k|]; simpl.
  - destruct Hhead as (Hk & Hoffers & Hmin). exists k.
    split; [lia|]. split; [done|]. split; [by apply offers_spec|].
    intros j Hj Hlisted. apply (Hmin j); [lia|]. by apply offers_spec.
  - intros k Hk Hlisted. apply (Hhead k); [lia|]. by apply offers_spec.
Qed.

Lemma foldl_snoc_omap {A B} (step : list B → A → list B) (g : A → option B)
    (l : list A) (acc : list B) :
  (∀ acc x, step acc x = match g x with Some y => acc ++ [y] | None => acc end) →
  foldl step acc l = acc ++ omap g l.
Proof.
  intros Hstep. revert acc. induction l as [|x l IH]; intros acc; simpl.
  { by rewrite app_nil_r. }
  rewrite IH, Hstep. destruct (g x); [|done]. by rewrite <- app_assoc.
Qed.

(** X20.  [_filter_doctors_by_date] lists, in the order given, exactly the
    doctors whose availability has at least one slot under the target
    date, each with the slots declared for that date. *)
Theorem filter_doctors_by_date_spec (doctors : list SystemUser)
    (target_date : pydate) (doctor : SystemUser) (slots : list string) :
  (doctor, slots) ∈ patient_availability._filter_doctors_by_date doctors target_date
  ↔ doctor ∈ doctors ∧ slots ≠ [] ∧
    ∃ profile avail,
      physician_profile doctor = Some profile ∧
      availability profile = Some avail ∧
      avail !! strftime_Ymd target_date = Some slots.
Proof.
  unfold patient_availability._filter_doctors_by_date.
  set (g := λ d : SystemUser,
         match declared_slots d (strftime_Ymd target_date) with
         | Some s => if decide (s ≠ []) then Some (d, s) else None
         | None => None
         end).
  rewrite (foldl_snoc_omap _ g).
  2: { intros acc d. subst g. simpl.
       destruct (declared_slots d _); [|done]. by case_decide. }
  rewrite app_nil_l.
  rewrite list_elem_of_omap. subst g. split.
  - intros (d & Hd & Hg). unfold declared_slots in Hg.
    destruct (physician_profile d) as [profile|] eqn:Hp; [|done].
    destruct (availability profile) as [avail|] eqn:Ha; [|done].
    destruct (decide (avail = ∅)); [done|].
    destruct (avail !! strftime_Ymd target_date) as [s|] eqn:Hlook; [|done].
    case_decide; [|done]. simplify_eq.
    split; [done|]. split; [done|]. by exists profile, avail.
  - intros (Hd & Hne & profile & avail & Hp & Ha & Hlook).
    exists doctor. split; [done|]. unfold declared_slots. rewrite Hp, Ha.
    rewrite decide_False.
    + rewrite Hlook. by rewrite decide_True.
    + intros ->. by rewrite lookup_empty in Hlook.
Qed.

Lemma foldl_cond_insert_lookup {V} (step : gmap string V → nat → gmap string V)
    (f : nat → string) (h : string → option V) (l : list nat)
    (m : gmap string V) (key : string) :
  (∀ m k, step m k = match h (f k) with Some v => <[f k := v]> m | None => m end) →
  foldl step m l !! key =
    if decide (key ∈ f <$> l) then
      match h key with Some v => Some v | None => m !! key end
    else m !! key.
Proof.
  intros Hstep. revert m. induction l as [|k l IH]; intros m.
  { destruct (decide (key ∈ f <$> [])) as [Hin|_]; [|done].
    by apply elem_of_nil in Hin. }
  cbn [foldl]. rewrite IH, Hstep, fmap_cons.
  destruct (decide (key ∈ f <$> l)) as [Hin|Hnotin];
    destruct (decide (key ∈ f k :: (f <$> l))) as [Hin'|Hnotin'].
  - destruct (h key) as [v|] eqn:Hkey; [done|].
    destruct (h (f k)) as [v|] eqn:Hk; [|done].
    rewrite lookup_insert_ne; [done|]. intros Heq. congruence.
  - exfalso. apply Hnotin'. by right.
  - apply elem_of_cons in Hin' as [->|?]; [|done].
    destruct (h (f k)); [by rewrite lookup_insert_eq|done].
  - destruct (h (f k)); [|done].
    rewrite lookup_insert_ne; [done|]. intros <-. apply Hnotin'. by left.
Qed.

(** X21.  [_build_doctor_availability_data] lists a doctor exactly when
    the doctor's availability has a non-empty slot list on at least one of
    the seven dates of the horizon, and shows for each listed doctor the
    declared availability restricted to those dates: keys outside the
    horizon and dates with an empty list are left out. *)
Theorem build_doctor_availability_data_spec (today : pydate)
    (doctors : list SystemUser) (doctor : SystemUser)
    (data : gmap string (list string)) :
  (doctor, data) ∈ patient_availability._build_doctor_availability_data today doctors
  ↔ doctor ∈ doctors ∧ data ≠ ∅ ∧
    ∃ profile avail,
      physician_profile doctor = Some profile ∧
      availability profile = Some avail ∧
      ∀ ds, data !! ds =
            match avail !! ds with
            | Some slots =>
              if decide (ds ∈ horizon today ∧ slots ≠ []) then Some slots
              else None
            | None => None
            end.
Proof.
  unfold patient_availability._build_doctor_availability_data.
  set (view := λ avail : gmap string (list string),
         foldl (λ data day_offset,
           match avail !! strftime_Ymd (add_days today day_offset) with
           | Some slots =>
             if decide (slots ≠ []) then
               <[strftime_Ymd (add_days today day_offset) := slots]> data
             else data
           | None => data
           end) (∅ : gmap string (list string)) range7).
  assert (∀ avail ds,
            view avail !! ds =
              match avail !! ds with
              | Some slots =>
                if decide (ds ∈ horizon today ∧ slots ≠ []) then Some slots
                else None
              | None => None
              end) as Hview.
  { intros avail ds. subst view. cbv beta.
    rewrite (foldl_cond_insert_lookup _
               (λ k, strftime_Ymd (add_days today k))
               (λ ds, match avail !! ds with
                      | Some slots => if decide (slots ≠ []) then Some slots
                                      else None
                      | None => None
                      end)).
    2: { intros m k. simpl. destruct (avail !! _); [|done]. by case_decide. }
    fold (horizon today). rewrite lookup_empty.
    destruct (avail !! ds) as [slots|]; repeat case_decide; naive_solver. }
  set (g := λ d : SystemUser,
         match physician_profile d with
         | None => None
         | Some profile =>
           match availability profile with
           | None => None
           | Some avail =>
             if decide (avail = ∅) then None
             else if decide (view avail ≠ ∅) then Some (d, view avail)
                  else None
           end
         end).
  rewrite (foldl_snoc_omap _ g).
  2: { intros acc d. subst g view. simpl.
       destruct (physician_profile d) as [profile|]; [|done].
       destruct (availability profile) as [avail|]; [|done].
       by repeat case_decide. }
  rewrite app_nil_l, list_elem_of_omap. subst g. split.
  - intros (d & Hd & Hg).
    destruct (physician_profile d) as [profile|] eqn:Hp; [|done].
    destruct (availability profile) as [avail|] eqn:Ha; [|done].
    repeat case_decide; simplify_eq.
    split; [done|]. split; [done|]. by exists profile, avail.
  - intros (Hd & Hne & profile & avail & Hp & Ha & Hdata).
    exists doctor. split; [done|]. rewrite Hp, Ha.
    assert (data = view avail) as ->.
    { apply map_eq. intros ds. by rewrite Hdata, Hview. }
    rewrite decide_False.
    + by rewrite decide_True.
    + intros ->. apply Hne. apply map_eq. intros ds.
      by rewrite Hview, lookup_empty.
Qed.

(** *** The dates of the horizon *)

Lemma digit_digit_char (n : Z) : 0 ≤ n < 10 → digit (digit_char n) = Some n.
Proof.
  intros Hn.
  assert (n = 0 ∨ n = 1 ∨ n = 2 ∨ n = 3 ∨ n = 4 ∨ n = 5 ∨ n = 6 ∨ n = 7 ∨
          n = 8 ∨ n = 9) as Hcases by lia.
  repeat destruct Hcases as [->|Hcases]; try reflexivity. by subst.
Qed.

Lemma digits_cons (a : Z) (rest : string) (acc : Z) :
  0 ≤ a < 10 →
  digits (String (digit_char a) rest) acc = digits rest (10 * acc + a).
Proof. intros Ha. cbn [digits]. rewrite digit_digit_char by done. reflexivity. Qed.

Lemma decimal_two_digits (n : Z) : 0 ≤ n < 100 → decimal (two_digits n) = Some n.
Proof.
  intros Hn. unfold decimal, two_digits. rewrite decide_False by done.
  assert (0 ≤ n / 10 < 10)
    by (split; [apply Z.div_pos|apply Z.div_lt_upper_bound]; lia).
  assert (0 ≤ n mod 10 < 10) by (apply Z.mod_pos_bound; lia).
  rewrite !digits_cons by done.
  cbn [digits]. f_equal. pose proof (Z.div_mod n 10). lia.
Qed.

Lemma decimal_four_digits (n : Z) :
  0 ≤ n < 10000 → decimal (four_digits n) = Some n.
Proof.
  intros Hn. unfold decimal, four_digits, two_digits.
  rewrite decide_False by done.
  assert (0 ≤ n / 1000 < 10)
    by (split; [apply Z.div_pos|apply Z.div_lt_upper_bound]; lia).
  assert (0 ≤ n / 100 mod 10 < 10) by (apply Z.mod_pos_bound; lia).
  assert (0 ≤ n mod 100 / 10 < 10).
  { pose proof (Z.mod_pos_bound n 100).
    split; [apply Z.div_pos|apply Z.div_lt_upper_bound]; lia. }
  assert (0 ≤ n mod 100 mod 10 < 10) by (apply Z.mod_pos_bound; lia).
  rewrite !digits_cons by done. cbn [digits]. f_equal.
  pose proof (Z.div_mod n 100). pose proof (Z.div_mod (n / 100) 10).
  pose proof (Z.div_mod (n mod 100) 10).
  assert (n / 100 / 10 = n / 1000) as Hdiv by (rewrite Z.div_div by lia; reflexivity).
  lia.
Qed.

Lemma days_in_month_bounds (y m : Z) : 28 ≤ days_in_month y m ≤ 31.
Proof. unfold days_in_month. repeat case_match; lia. Qed.

Lemma iso_date_strftime (d : pydate) :
  valid_date d → iso_date (strftime_Ymd d) = Some d.
Proof.
  intros (Hy & Hm & Hd). pose proof (days_in_month_bounds (year d) (month d)).
  unfold strftime_Ymd, four_digits, two_digits, iso_date.
  cbv beta iota fix delta [String.append].
  fold (two_digits (year d mod 100)). fold (four_digits (year d)).
  fold (two_digits (month d)). fold (two_digits (day d)).
  rewrite decimal_four_digits, !decimal_two_digits by lia. cbn [mbind option_bind].
  rewrite bool_decide_eq_true_2 by lia. by destruct d.
Qed.

Lemma valid_date_next_day (d : pydate) :
  valid_date d → year d < 9999 → valid_date (next_day d).
Proof.
  intros (Hy & Hm & Hd) Hlt. unfold next_day, valid_date.
  pose proof (days_in_month_bounds (year d) (month d + 1)).
  pose proof (days_in_month_bounds (year d + 1) 1).
  repeat case_decide; simpl; lia.
Qed.

Lemma year_next_day (d : pydate) : year d ≤ year (next_day d) ≤ year d + 1.
Proof. unfold next_day. repeat case_decide; simpl; lia. Qed.

Lemma valid_date_add_days (k : nat) (d : pydate) :
  valid_date d → year d + Z.of_nat k ≤ 9999 →
  valid_date (add_days d k) ∧ year d ≤ year (add_days d k) ≤ year d + Z.of_nat k.
Proof.
  revert d. induction k as [|k IH]; intros d Hd Hy; cbn [add_days];
    [split; [done|lia]|].
  pose proof (year_next_day d).
  destruct (IH (next_day d)) as [Hvalid Hyear];
    [apply valid_date_next_day; [done|lia]|lia|].
  split; [done|lia].
Qed.

Lemma next_day_later (d : pydate) :
  valid_date d →
  (year d * 12 + month d) * 31 + day d
  < (year (next_day d) * 12 + month (next_day d)) * 31 + day (next_day d).
Proof.
  intros (Hy & Hm & Hd). pose proof (days_in_month_bounds (year d) (month d)).
  unfold next_day. repeat case_decide; simpl; lia.
Qed.

Lemma add_days_later (k : nat) (d : pydate) :
  valid_date d → year d + Z.of_nat k ≤ 9999 → (0 < k)%nat →
  (year d * 12 + month d) * 31 + day d
  < (year (add_days d k) * 12 + month (add_days d k)) * 31 + day (add_days d k).
Proof.
  revert d. induction k as [|k IH]; intros d Hd Hy Hk; [lia|]. cbn [add_days].
  pose proof (next_day_later d Hd). pose proof (year_next_day d).
  destruct k as [|k]; [done|].
  assert (valid_date (next_day d)) by (apply valid_date_next_day; [done|lia]).
  etrans; [done|]. apply IH; [done|lia|lia].
Qed.

Lemma add_days_add (d : pydate) (j k : nat) :
  add_days d (j + k) = add_days (add_days d j) k.
Proof. revert d. induction j as [|j IH]; intros d; simpl; [done|apply IH]. Qed.

Lemma add_days_inj (d : pydate) (j k : nat) :
  valid_date d → year d + 6 ≤ 9999 → (j < 7)%nat → (k < 7)%nat →
  add_days d j = add_days d k → j = k.
Proof.
  intros Hd Hy Hj Hk Heq.
  destruct (decide (j = k)) as [|Hne]; [done|]. exfalso.
  assert (∀ a b, (a < b < 7)%nat → add_days d a ≠ add_days d b) as Hlt.
  { intros a b Hab Hsame.
    replace b with (a + (b - a))%nat in Hsame by lia.
    rewrite add_days_add in Hsame.
    destruct (valid_date_add_days a d Hd) as [Hva Hya]; [lia|].
    pose proof (add_days_later (b - a) (add_days d a) Hva) as Hlater.
    rewrite <- Hsame in Hlater. lia. }
  destruct (decide (j < k)%nat).
  - by apply (Hlt j k).
  - apply (Hlt k j); [lia|done].
Qed.

Lemma strftime_Ymd_inj (d1 d2 : pydate) :
  valid_date d1 → valid_date d2 → strftime_Ymd d1 = strftime_Ymd d2 → d1 = d2.
Proof.
  intros H1 H2 Heq.
  apply iso_date_strftime in H1, H2. rewrite Heq in H1. congruence.
Qed.

Lemma horizon_NoDup (today : pydate) :
  valid_date today → year today + 6 ≤ 9999 → NoDup (horizon today).
Proof.
  intros Hvalid Hyear. unfold horizon, range7.
  apply NoDup_fmap_2_strong; [|apply NoDup_seq].
  intros j k Hj Hk Heq.
  apply elem_of_seq in Hj, Hk.
  apply (add_days_inj today); [done|done|lia|lia|].
  apply strftime_Ymd_inj; [apply valid_date_add_days; [done|lia]..|done].
Qed.

Lemma size_of_horizon_keys (today : pydate) (m : gmap string (list string)) :
  valid_date today → year today + 6 ≤ 9999 →
  (∀ ds, is_Some (m !! ds) ↔ ds ∈ horizon today) →
  size m = 7%nat.
Proof.
  intros Hvalid Hyear Hkeys.
  assert (dom m = list_to_set (horizon today)) as Hdom.
  { apply set_eq. intros ds. rewrite elem_of_dom, elem_of_list_to_set. apply Hkeys. }
  rewrite <- size_dom, Hdom, size_list_to_set by by apply horizon_NoDup.
  reflexivity.
Qed.

(** X22.  For a request made on a date whose year has four digits (and
    with six days to spare before the year 9999), the dictionaries built
    by both availability forms and the default schedule have exactly seven
    keys: the seven dates of the horizon are pairwise distinct. *)
Theorem availability_forms_store_seven_days (today : pydate) (form : MultiDict) :
  valid_date today → 1000 ≤ year today ≤ 9993 →
  size (doctor_availability._extract_availability_from_form today form) = 7%nat ∧
  size (admin_availability._extract_availability_from_form today form) = 7%nat ∧
  size (admin_availability._generate_default_availability_schedule today) = 7%nat.
Proof.
  intros Hvalid Hyear.
  split; [|split]; apply (size_of_horizon_keys today); try done; try lia; intros ds.
  - rewrite doctor_form_lookup. case_decide; [|by split; [intros []|]].
    split; [done|]. intros _. eauto.
  - rewrite admin_form_lookup. case_decide; [|by split; [intros []|]].
    split; [done|]. intros _. eauto.
  - etrans; [|apply (iff_refl _)].
    unfold admin_availability._generate_default_availability_schedule.
    rewrite (foldl_insert_lookup (λ k, strftime_Ymd (add_days today k))
               (λ _, ["09:00"; "10:00"; "14:00"; "15:00"]) range7 ∅ ds
             : foldl _ _ _ !! ds = _).
    fold (horizon today). case_decide; [|rewrite lookup_empty; by split; [intros []|]].
    split; [done|]. intros _. eauto.
Qed.

Lemma availability_forms_store_seven_days_witness :
  size (admin_availability._extract_availability_from_form june_10 admin_form)
    = 7%nat.
Proof.
  refine (proj1 (proj2
    (availability_forms_store_seven_days june_10 admin_form _ _))).
  - unfold valid_date. vm_compute. repeat split; discriminate.
  - vm_compute. split; discriminate.
Defined.

Lemma strftime_Ymd_nonempty (d : pydate) : strftime_Ymd d ≠ "".
Proof. unfold strftime_Ymd, four_digits. cbv beta iota fix delta [String.append]. done. Qed.

Lemma uq_free_slot (table : list MedicalAppointment) (row : MedicalAppointment) :
  (∀ a, a ∈ table → ¬ same_slot a row) →
  uq_doctor_date_time_booked_slot table row = true.
Proof.
  intros Hfree. unfold uq_doctor_date_time_booked_slot.
  apply bool_decide_eq_true, Forall_forall. intros a Ha. right. by apply Hfree.
Qed.

(** X23.  What the administrator's form stores can be booked.  After the
    administrator's POST has stored a time under one of the seven dates of
    the horizon, a patient's POST for that provider, date and time (with
    the runtime that reads canonical strings, the time being of the form
    HH:MM) books it, provided no appointment of any status holds that
    provider, date and time: exactly one Booked row is appended, dated
    today plus the offset of that date. *)
Theorem stored_slot_can_be_booked (db : Database) (u p physician : SystemUser)
    (did : Z) (today : pydate) (form : MultiDict) (k : nat)
    (doctor_field ts notes_field : string) (t : pytime) :
  valid_date today → 1000 ≤ year today ≤ 9993 →
  role u = ADMIN → role p = PATIENT →
  get_user (users db) did = Some physician →
  role physician = DOCTOR → physician_profile physician ≠ None →
  decimal doctor_field = Some did →
  (k < 7)%nat →
  ts ∈ form ("slots_" +:+ strftime_Ymd (add_days today k)) →
  hh_mm ts = Some t →
  (∀ a, a ∈ appointments db →
        ¬ (doctor_id a = did ∧ date a = add_days today k ∧ time a = t)) →
  let stored :=
    (admin_availability.manage_physician_availability db u did POST today
       form).1 in
  let result :=
    @patient.create_appointment canonical_runtime stored p POST
      {| req_doctor_id := doctor_field;
         req_date := strftime_Ymd (add_days today k);
         req_time := ts; req_notes := notes_field;
         req_specialization := "" |} in
  appointments result.1 =
    appointments db ++
      [{| id := next_id (id <$> appointments db); patient_id := user_id p;
          doctor_id := did; date := add_days today k; time := t;
          status := BOOKED; notes := notes_field |}] ∧
  flashed result.2 = [("Appointment booked successfully!", "success")].
Proof.
  intros Hvalid Hyear Hadmin Hpatient Hget Hrole Hprofile Hfield Hk Hts Ht Hfree
    stored result.
  pose proof (get_user_Some _ _ _ Hget) as [_ Hid].
  assert (stored = with_users db
            (set_availability (users db) did
               (admin_availability._extract_availability_from_form today form)))
    as Hstored.
  { subst stored.
    unfold admin_availability.manage_physician_availability,
      admin.require_administrator_access.
    rewrite Hadmin, Hget. simpl.
    rewrite bool_decide_eq_false_2 by (rewrite Hrole; auto).
    rewrite bool_decide_eq_false_2 by done. simpl. by rewrite Hid. }
  set (physician' :=
         {| user_id := user_id physician; role := role physician;
            physician_profile :=
              Some {| availability :=
                        Some (admin_availability._extract_availability_from_form
                                today form) |} |}).
  assert (get_user (users stored) did = Some physician') as Hget'.
  { rewrite Hstored. simpl. rewrite get_user_set_availability, Hget. simpl.
    by rewrite decide_True. }
  assert (patient._validate_doctor_availability physician'
            (strftime_Ymd (add_days today k)) ts = (true, None)) as Hval.
  { apply (validate_with_availability _
             (admin_availability._extract_availability_from_form today form));
      [done|].
    rewrite admin_form_lookup. rewrite decide_True.
    - eexists. split; [reflexivity|]. by apply elem_of_sorted_or_empty.
    - unfold horizon, range7. apply list_elem_of_fmap. exists k.
      split; [done|]. apply elem_of_seq. lia. }
  destruct (valid_date_add_days k today Hvalid) as [Hvk _]; [lia|].
  assert (ts ≠ "") as Hnonempty by (intros ->; done).
  assert (doctor_field ≠ "") as Hfield_nonempty by (intros ->; done).
  subst result.
  unfold patient.create_appointment, patient.require_client_access, truthy.
  cbn [req_doctor_id req_date req_time req_notes].
  rewrite Hpatient.
  rewrite !bool_decide_eq_true_2
    by (done || apply strftime_Ymd_nonempty).
  cbn [py_int fromisoformat strptime_HM canonical_runtime].
  rewrite Hfield, Hget'. cbn [andb negb].
  replace (role physician') with DOCTOR by done.
  replace (user_id physician') with did by done.
  rewrite Hval.
  unfold patient.verify_slot_availability, patient._normalize_date_time_inputs,
    is_slot_available.
  cbn [py_int fromisoformat strptime_HM canonical_runtime].
  rewrite (iso_date_strftime _ Hvk), Ht. cbn [mbind option_bind].
  assert (appointments stored = appointments db) as -> by by rewrite Hstored.
  rewrite (proj2 (check_time_slot_availability_spec (appointments db) did
                    (add_days today k) t None)).
  2: { intros a Ha (? & ? & ? & _). by apply (Hfree a Ha). }
  cbn [negb]. unfold insert_appointment.
  rewrite uq_free_slot.
  2: { intros a Ha (? & ? & ?). by apply (Hfree a Ha). }
  done.
Qed.

Lemma stored_slot_can_be_booked_witness :
  appointments
    (@patient.create_appointment canonical_runtime
       (admin_availability.manage_physician_availability clinic administrator
          2 POST june_10 admin_form).1
       patient_a POST
       {| req_doctor_id := "2"; req_date := strftime_Ymd (add_days june_10 0);
          req_time := "09:00"; req_notes := "cough";
          req_specialization := "" |}).1
  = [appointment_of_a BOOKED].
Proof.
  refine (proj1
    (stored_slot_can_be_booked clinic administrator patient_a provider_p 2
       june_10 admin_form 0 "2" "09:00" "cough" nine _ _ eq_refl eq_refl
       eq_refl eq_refl _ eq_refl _ _ eq_refl _)).
  - unfold valid_date. vm_compute. repeat split; discriminate.
  - vm_compute. split; discriminate.
  - discriminate.
  - lia.
  - vm_compute. constructor 2. constructor.
  - intros a Ha. by apply elem_of_nil in Ha.
Defined.

(** X24.  The refusals of a reschedule, for the patient of a booked
    appointment.  A POST with the date or the time missing is refused with
    "Please select both date and time."; a date and time that the provider
    does not offer is refused with the message of the availability check;
    a slot that is offered but held by another booked appointment of the
    provider is refused with the "already booked" message.  In all three
    cases the form is rendered again and the database is unchanged. *)
Theorem reschedule_refusals `{!PyRuntime} (db : Database) (u : SystemUser)
    (i : Z) (a : MedicalAppointment) (req : BookingRequest) :
  role u = PATIENT →
  get_appointment (appointments db) i = Some a →
  patient_id a = user_id u →
  status a = BOOKED →
  let result := patient.reschedule_client_appointment db u i POST req in
  let form := Render "patient/reschedule_appointment.html" in
  (req_date req = "" ∨ req_time req = "" →
     result = (db, flash "Please select both date and time." "error" form)) ∧
  (∀ doctor reason,
     req_date req ≠ "" → req_time req ≠ "" →
     get_user (users db) (doctor_id a) = Some doctor →
     patient._validate_doctor_availability doctor (req_date req) (req_time req)
       = (false, Some reason) →
     result = (db, flash reason "error" form)) ∧
  (∀ doctor d t b,
     req_date req ≠ "" → req_time req ≠ "" →
     get_user (users db) (doctor_id a) = Some doctor →
     (patient._validate_doctor_availability doctor (req_date req) (req_time req)).1
       = true →
     fromisoformat (req_date req) = Some d →
     strptime_HM (req_time req) = Some t →
     b ∈ appointments db → id b ≠ id a → status b = BOOKED →
     doctor_id b = doctor_id a → date b = d → time b = t →
     result = (db, flash "This time slot is already booked. Please choose another time."
                     "error" form)).
Proof.
  intros Hpatient Hget Hown Hbooked result form. subst result form.
  unfold patient.reschedule_client_appointment, patient.require_client_access,
    patient._verify_appointment_ownership, truthy.
  rewrite Hpatient, Hget, Hown, Hbooked. simpl.
  rewrite bool_decide_eq_true_2 by done. simpl.
  split; [|split].
  - intros [-> | ->]; simpl; [done|]. by rewrite andb_false_r.
  - intros doctor reason Hd Ht Hdoctor Hval.
    rewrite !bool_decide_eq_true_2 by done. simpl.
    by rewrite Hdoctor, Hval.
  - intros doctor d t b Hd Ht Hdoctor Hval Hpd Hpt Hb Hid Hst Hdoc Hdate Htime.
    rewrite !bool_decide_eq_true_2 by done. simpl. rewrite Hdoctor.
    destruct (patient._validate_doctor_availability doctor (req_date req)
                (req_time req)) as [[] reason]; [|done].
    unfold patient.verify_slot_availability, patient._normalize_date_time_inputs,
      is_slot_available.
    rewrite Hpd, Hpt. simpl.
    subst d t. rewrite <- Hdoc.
    rewrite (check_time_slot_availability_taken (appointments db) b
               (Some (id a))); [done|done|done|].
    intros x [= <-]. done.
Qed.

Lemma reschedule_refusals_witness :
  @patient.reschedule_client_appointment canonical_runtime (clinic_with BOOKED)
    patient_a 1 POST (booking "" "" "10:00" "")
  = (clinic_with BOOKED,
     flash "Please select both date and time." "error"
       (Render "patient/reschedule_appointment.html")).
Proof.
  apply (proj1 (@reschedule_refusals canonical_runtime (clinic_with BOOKED)
                  patient_a 1 (appointment_of_a BOOKED)
                  (booking "" "" "10:00" "") eq_refl eq_refl eq_refl eq_refl)).
  left. reflexivity.
Defined.

(** X25.  An id that names no appointment is answered with 404 by every
    handler that takes one (reschedule, both cancels, complete, the status
    update and the delete), for a user of the role the handler serves, and
    the database is unchanged.  The id is one that the route converter
    yields and the storage layer can look up: not negative and below
    2^63. *)
Theorem unknown_appointment_is_404 `{!PyRuntime} (db : Database)
    (u : SystemUser) (i : Z) :
  0 ≤ i < 2 ^ 63 →
  get_appointment (appointments db) i = None →
  let not_found := (db, respond (Abort 404)) in
  (role u = PATIENT →
     (∀ m req, patient.reschedule_client_appointment db u i m req = not_found) ∧
     patient.cancel_client_appointment db u i = not_found) ∧
  (role u = DOCTOR →
     (∀ m data, doctor.mark_appointment_completed db u i m data = not_found) ∧
     doctor.cancel_physician_appointment db u i = not_found) ∧
  (role u = ADMIN →
     (∀ s, admin.modify_appointment_status db u i s = not_found) ∧
     admin.remove_appointment db u i = not_found).
Proof.
  intros _ Hget not_found. subst not_found.
  unfold patient.reschedule_client_appointment,
    patient.cancel_client_appointment, patient.require_client_access,
    doctor.mark_appointment_completed, doctor.cancel_physician_appointment,
    doctor.require_physician_access, admin.modify_appointment_status,
    admin.remove_appointment, admin.require_administrator_access.
  rewrite Hget.
  split; [|split]; intros Hrole; rewrite Hrole; simpl; by split.
Qed.

Lemma unknown_appointment_is_404_witness :
  patient.cancel_client_appointment clinic patient_a 7
  = (clinic, respond (Abort 404)).
Proof.
  exact (proj2 (proj1 (@unknown_appointment_is_404 canonical_runtime clinic
                         patient_a 7 ltac:(lia) eq_refl) eq_refl)).
Defined.

(** X26.  Rescheduling there and back is a round trip: when a reschedule
    of an appointment is accepted and a second one, back to the date and
    time the appointment had, is accepted too, the database is again what
    it was before the first. *)
Theorem reschedule_there_and_back `{!PyRuntime} (db db1 db2 : Database)
    (u : SystemUser) (i : Z) (a : MedicalAppointment)
    (there back : BookingRequest) (r1 r2 : Response) (m1 m2 : string) :
  primary_key (appointments db) →
  get_appointment (appointments db) i = Some a →
  patient.reschedule_client_appointment db u i POST there = (db1, r1) →
  (m1, "success") ∈ flashed r1 →
  patient.reschedule_client_appointment db1 u i POST back = (db2, r2) →
  (m2, "success") ∈ flashed r2 →
  fromisoformat (req_date back) = Some (date a) →
  strptime_HM (req_time back) = Some (time a) →
  db2 = db.
Proof.
  intros Hpk Hget H1 Hs1 H2 Hs2 Hd Ht.
  pose proof (get_appointment_Some _ _ _ Hget) as [Hin Hid].
  apply reschedule_client_appointment_inv in H1 as [[_ Hnone]|H1].
  { by apply Hnone in Hs1. }
  destruct H1 as (a1 & doc1 & d1 & t1 & table1 & _ & _ & Hget1 & _ & _ & _ & _
                  & _ & _ & _ & Hupd1 & -> & _).
  rewrite Hget in Hget1. injection Hget1 as <-.
  assert (table1 = update_row (appointments db) (set_date_time a d1 t1)) as ->.
  { apply update_date_time_Some in Hupd1 as [->|(<- & <- & ->)]; [done|].
    rewrite set_date_time_same. symmetry. by apply update_row_same. }
  apply reschedule_client_appointment_inv in H2 as [[_ Hnone]|H2].
  { by apply Hnone in Hs2. }
  destruct H2 as (a2 & doc2 & d2 & t2 & table2 & _ & _ & Hget2 & _ & _ & _ & _
                  & Hd2 & Ht2 & _ & Hupd2 & -> & _).
  simpl in Hget2, Hupd2.
  rewrite get_appointment_update_row, Hget in Hget2. simpl in Hget2.
  rewrite decide_True in Hget2 by done. injection Hget2 as <-.
  rewrite Hd in Hd2. rewrite Ht in Ht2. simplify_eq.
  assert (table2 = appointments db) as ->.
  { assert (update_row (update_row (appointments db) (set_date_time a d1 t1)) a
            = appointments db) as Hback.
    { unfold update_row. rewrite <- list_fmap_compose.
      transitivity ((λ b : MedicalAppointment, b) <$> appointments db).
      - apply list_fmap_ext. intros ? b Hb. simpl.
        repeat case_decide; simpl in *; try done.
        symmetry. apply (primary_key_inj (appointments db)); [done| |done|done].
        by eapply list_elem_of_lookup_2.
      - clear. induction (appointments db) as [|x l IH]; [done|].
        simpl. by f_equal. }
    apply update_date_time_Some in Hupd2 as [->|(Hd' & Ht' & ->)].
    - replace (set_date_time (set_date_time a d1 t1) (date a) (time a)) with a
        by by destruct a.
      done.
    - simpl in Hd', Ht'. subst d1 t1. rewrite set_date_time_same.
      by apply update_row_same. }
  by destruct db.
Qed.

Lemma reschedule_there_and_back_witness :
  let there :=
    @patient.reschedule_client_appointment canonical_runtime
      (clinic_with BOOKED) patient_a 1 POST (booking "" "2025-06-10" "10:00" "") in
  (@patient.reschedule_client_appointment canonical_runtime there.1 patient_a 1
     POST (booking "" "2025-06-10" "09:00" "")).1 = clinic_with BOOKED.
Proof.
  intros there.
  apply (@reschedule_there_and_back canonical_runtime (clinic_with BOOKED)
           there.1 _ patient_a 1 (appointment_of_a BOOKED)
           (booking "" "2025-06-10" "10:00" "")
           (booking "" "2025-06-10" "09:00" "") there.2
           (@patient.reschedule_client_appointment canonical_runtime there.1
              patient_a 1 POST (booking "" "2025-06-10" "09:00" "")).2
           "Appointment rescheduled successfully!"
           "Appointment rescheduled successfully!").
  - apply NoDup_singleton.
  - reflexivity.
  - apply surjective_pairing.
  - vm_compute. constructor.
  - apply surjective_pairing.
  - vm_compute. constructor.
  - reflexivity.
  - reflexivity.
Defined.
